(** * gemini-media-agent: the four-stage media pipeline of [main.py]

    A shallow embedding of [main.py] and the properties of its shell tool
    adapter, its interactive step runner and its pipeline orchestrator.

    Everything outside the program (the host platform, the shell, the agent
    runtime with its model provider, the user at the terminal, the
    credential configuration) is an interface, [Externals], over an
    abstract environment state.  The program itself is written in a state
    and exception monad over a [World]: the environment plus the trace of
    the input/output the program has performed. *)

From Stdlib Require Import List String Ascii ZArith NArith Lia Bool.
From Stdlib Require Decimal DecimalZ.
Import ListNotations.

Set Implicit Arguments.

(** ** Text

    A Python [str] is a sequence of code points. *)

Definition char := N.
Definition str := list char.

(** A literal of the source. *)
Definition lit (s : string) : str := map N_of_ascii (list_ascii_of_string s).

(** Truthiness of a [str]: the empty string is false. *)
Definition truthy (s : str) : bool :=
  match s with [] => false | _ :: _ => true end.

(** Equality of two strings, code point by code point. *)
Fixpoint str_eqb (a b : str) : bool :=
  match a, b with
  | [], [] => true
  | x :: a', y :: b' => N.eqb x y && str_eqb a' b'
  | _, _ => false
  end.

(** [str.isspace] on one code point: the code points Python's [str.split]
    treats as separators when it is called without an argument. *)
Definition isspace (c : char) : bool :=
  ((9 <=? c) && (c <=? 13) || (28 <=? c) && (c <=? 32) || (c =? 133)
   || (c =? 160) || (c =? 5760) || (8192 <=? c) && (c <=? 8202)
   || (c =? 8232) || (c =? 8233) || (c =? 8239) || (c =? 8287)
   || (c =? 12288))%N.

(** [s.split()]: the maximal runs of non-space code points, in order.
    [cur] is the run being read, reversed. *)
Fixpoint split_from (cur : str) (s : str) : list str :=
  match s with
  | [] => match cur with [] => [] | _ => [rev cur] end
  | c :: s' =>
      if isspace c
      then match cur with
           | [] => split_from [] s'
           | _ => rev cur :: split_from [] s'
           end
      else split_from (c :: cur) s'
  end.

Definition split (s : str) : list str := split_from [] s.

(** ** Exceptions and outcomes *)

(** The subclasses of [Exception] the program meets, each with the text
    [str(e)] gives. *)
Inductive exn : Type :=
| FileNotFoundError (message : str)
| IndexError (message : str)
| EOFError (message : str)
| OtherException (message : str).

Definition str_of_exn (e : exn) : str :=
  match e with
  | FileNotFoundError m | IndexError m | EOFError m | OtherException m => m
  end.

(** What a call into the outside world answers. *)
Inductive attempt (A : Type) : Type :=
| Ok (a : A)
| Fail (e : exn).
Arguments Fail {A} e.

(** How a computation of the program ends: it returns, an exception leaves
    it, [sys.exit] ends the process, or the fuel given to its loop ran out
    before the loop was left. *)
Inductive outcome (A : Type) : Type :=
| Returned (a : A)
| Raised (e : exn)
| Exited (status : Z)
| Unfinished.
Arguments Raised {A} e.
Arguments Exited {A} status.
Arguments Unfinished {A}.

(** ** JSON text, as [json.dumps] writes it

    The tool serialises a flat dict whose values are strings or integers,
    with the default options of [json.dumps]: [ensure_ascii], the
    separators [", "] and [": "]. *)

Inductive scalar : Type :=
| JStr (s : str)
| JInt (n : Z).

Definition jobject := list (str * scalar).

Definition hex_digit (d : N) : char :=
  (if d <? 10 then 48 + d else 87 + d)%N.

(** ['\\u{0:04x}'.format(n)] for [n < 0x10000]. *)
Definition u_escape (n : N) : str :=
  [92; 117; hex_digit (N.shiftr n 12 mod 16); hex_digit (N.shiftr n 8 mod 16);
   hex_digit (N.shiftr n 4 mod 16); hex_digit (n mod 16)]%N.

(** One code point inside a JSON string: printable ASCII apart from the
    quote and the backslash stands for itself, the rest is escaped; a code
    point beyond the basic plane becomes a surrogate pair. *)
Definition escape_char (c : char) : str :=
  (if c =? 34 then [92; 34]
   else if c =? 92 then [92; 92]
   else if c =? 8 then [92; 98]
   else if c =? 12 then [92; 102]
   else if c =? 10 then [92; 110]
   else if c =? 13 then [92; 114]
   else if c =? 9 then [92; 116]
   else if (32 <=? c) && (c <=? 126) then [c]
   else if c <? 65536 then u_escape c
   else
     let n := c - 65536 in
     u_escape (N.lor 55296 (N.land (N.shiftr n 10) 1023))
       ++ u_escape (N.lor 56320 (N.land n 1023)))%N.

Definition encode_basestring_ascii (s : str) : str :=
  34%N :: flat_map escape_char s ++ [34%N].

Fixpoint chars_of_uint (d : Decimal.uint) : str :=
  match d with
  | Decimal.Nil => []
  | Decimal.D0 d => 48%N :: chars_of_uint d
  | Decimal.D1 d => 49%N :: chars_of_uint d
  | Decimal.D2 d => 50%N :: chars_of_uint d
  | Decimal.D3 d => 51%N :: chars_of_uint d
  | Decimal.D4 d => 52%N :: chars_of_uint d
  | Decimal.D5 d => 53%N :: chars_of_uint d
  | Decimal.D6 d => 54%N :: chars_of_uint d
  | Decimal.D7 d => 55%N :: chars_of_uint d
  | Decimal.D8 d => 56%N :: chars_of_uint d
  | Decimal.D9 d => 57%N :: chars_of_uint d
  end.

(** [int.__repr__]. *)
Definition repr_int (n : Z) : str :=
  match Z.to_int n with
  | Decimal.Pos d => chars_of_uint d
  | Decimal.Neg d => 45%N :: chars_of_uint d
  end.

Definition dumps_scalar (v : scalar) : str :=
  match v with
  | JStr s => encode_basestring_ascii s
  | JInt n => repr_int n
  end.

Definition dumps_member (kv : str * scalar) : str :=
  encode_basestring_ascii (fst kv) ++ lit ": " ++ dumps_scalar (snd kv).

Fixpoint dumps_members (kvs : jobject) : str :=
  match kvs with
  | [] => []
  | [kv] => dumps_member kv
  | kv :: rest => dumps_member kv ++ lit ", " ++ dumps_members rest
  end.

Definition json_dumps (o : jobject) : str :=
  123%N :: dumps_members o ++ [125%N].

(** ** Data model *)

(** The two tools every agent is given. *)
Inductive tool : Type :=
| tool_get_current_os
| tool_execute_terminal_command.

(** The four [output_type]s. *)
Inductive schema : Type :=
| AllRequirementsAnalysis
| AllPlannerSteps
| AllExecutorSteps
| AllQCSteps.

(** An [Agent] of the agent runtime, as the program configures it. *)
Record Agent : Type := mkAgent {
  name : str;
  instructions : str;
  model : str;
  tools : list tool;
  output_type : schema
}.

(** An item of a transcript: a message dict [{'role': r, 'content': c}], or
    whatever else the runtime records of a run (tool calls and their
    outputs), which the program never inspects. *)
Inductive Item : Type :=
| Message (role : str) (content : str)
| RuntimeItem (raw : str).

Definition user_message (content : str) : Item := Message (lit "user") content.

(** *** Stage outputs, field by field as the pydantic classes declare them *)

Record RequirementAnalysis : Type := {
  ra_requirement_number : Z;
  ra_requirement_specification : str;
  ra_relevant_available_files : list str;
  ra_requirement_satisfied_already : bool;
  ra_possible_to_satisfy_requirement : option bool;
  ra_plan_of_action : option str;
  ra_reasoning : str
}.

Record PlannerStep : Type := {
  ps_step_number : Z;
  ps_description : str;
  ps_terminal_command : str;
  ps_reasoning : str
}.

Inductive execution_status_t : Type := Success | Failure.

Record ExecutorStep : Type := {
  es_step_number : Z;
  es_terminal_command : str;
  es_execution_status : execution_status_t;
  es_command_changed : bool;
  es_updated_command : option str;
  es_challenges_faced : option str
}.

Record QCStep : Type := {
  qc_requirement_number : Z;
  qc_requirement_specification : str;
  qc_relevant_available_files : list str;
  qc_requirement_satisfied_successfully : bool;
  qc_reasoning : str
}.

Record AllRequirementsAnalysis_t : Type := {
  all_requirements_analysis : list RequirementAnalysis;
  ara_can_satisfy_all_requirements : bool;
  ara_any_user_input_required : bool;
  ara_question_to_user : option str
}.

Record AllPlannerSteps_t : Type := {
  all_planner_steps : list PlannerStep;
  aps_can_satisfy_all_requirements : bool;
  aps_any_user_input_required : bool;
  aps_question_to_user : option str
}.

Record AllExecutorSteps_t : Type := {
  all_executor_steps : list ExecutorStep;
  aes_can_satisfy_all_requirements : bool;
  aes_any_user_input_required : bool;
  aes_question_to_user : option str
}.

Record AllQCSteps_t : Type := {
  all_qc_steps : list QCStep;
  all_requirements_satisfied : bool;
  aqs_any_user_input_required : bool;
  aqs_question_to_user : option str
}.

(** A [final_output]: a value of one of the four containers. *)
Inductive StageOutput : Type :=
| OutAnalysis (o : AllRequirementsAnalysis_t)
| OutPlan (o : AllPlannerSteps_t)
| OutExecution (o : AllExecutorSteps_t)
| OutQC (o : AllQCSteps_t).

(** The attribute [final_output.any_user_input_required]. *)
Definition any_user_input_required (o : StageOutput) : bool :=
  match o with
  | OutAnalysis a => ara_any_user_input_required a
  | OutPlan p => aps_any_user_input_required p
  | OutExecution e => aes_any_user_input_required e
  | OutQC q => aqs_any_user_input_required q
  end.

(** The attribute [final_output.question_to_user]. *)
Definition question_to_user (o : StageOutput) : option str :=
  match o with
  | OutAnalysis a => ara_question_to_user a
  | OutPlan p => aps_question_to_user p
  | OutExecution e => aes_question_to_user e
  | OutQC q => aqs_question_to_user q
  end.

(** *** The declarations of the containers, as data

    Each field of a container with its annotation and what follows the
    [=] sign, to count fields by name and kind.  No field of the four
    containers has a default value: [Field(description=...)] gives a
    description only. *)
Inductive annotation : Type :=
| TInt | TStr | TBool
| TList (elem : string)
| TLiteral (values : list string)
| TOptional (a : annotation).

Inductive assigned : Type :=
| Nothing
| Field (description : string).

Definition ASK : string :=
  "Ask additional inputs from the user if needed or if all requirements cannot be satisfied.".

Definition fields_of (s : schema) : list (string * (annotation * assigned)) :=
  match s with
  | AllRequirementsAnalysis =>
      [("all_requirements_analysis", (TList "RequirementAnalysis", Nothing));
       ("can_satisfy_all_requirements", (TBool, Nothing));
       ("any_user_input_required", (TBool, Nothing));
       ("question_to_user", (TOptional TStr, Field ASK))]
  | AllPlannerSteps =>
      [("all_planner_steps", (TList "PlannerStep", Nothing));
       ("can_satisfy_all_requirements", (TBool, Nothing));
       ("any_user_input_required", (TBool, Nothing));
       ("question_to_user", (TOptional TStr, Field ASK))]
  | AllExecutorSteps =>
      [("all_executor_steps", (TList "ExecutorStep", Nothing));
       ("can_satisfy_all_requirements", (TBool, Nothing));
       ("any_user_input_required", (TBool, Nothing));
       ("question_to_user", (TOptional TStr, Field ASK))]
  | AllQCSteps =>
      [("all_qc_steps", (TList "QCStep", Nothing));
       ("all_requirements_satisfied", (TBool, Nothing));
       ("any_user_input_required", (TBool, Nothing));
       ("question_to_user", (TOptional TStr, Field ASK))]
  end%string.

(** The declarations of the field [f] in the container [s]. *)
Definition fields_named (f : string) (s : schema) : list (annotation * assigned) :=
  map snd (filter (fun fa => String.eqb (fst fa) f) (fields_of s)).

(** *** What the agent runtime hands back *)

(** The stream events [parse_event] tells apart, by [event.type] and
    [event.name], with the attributes it reads of each. *)
Inductive StreamEvent : Type :=
| llm_response_chunk (raw_item : str)
| tool_called (tool_name arguments : str)
| tool_output (output : str)
| other_run_item (event_name : str)
| agent_updated_stream_event (new_agent : Agent)
| other_event (event_type : str).

(** The result of [Runner.run_streamed], once its events are consumed. *)
Record RunResult : Type := mkRunResult {
  stream_events : list StreamEvent;
  final_output : StageOutput;
  last_agent : Agent;
  to_input_list : list Item
}.

(** The [CompletedProcess] of [subprocess.run(..., capture_output=True,
    text=True)]. *)
Record CompletedProcess : Type := mkCompleted {
  stdout : str;
  stderr : str;
  returncode : Z
}.

(** ** The outside world *)

(** What the program does that can be observed from outside, in order. *)
Inductive IOEvent : Type :=
| Printed (text : str)                       (* written to sys.stdout *)
| PrintedErr (text : str)                    (* written to sys.stderr *)
| Asked (prompt : str) (answer : attempt str) (* input(prompt) *)
| Spawned (command : str)                    (* subprocess.run(command, shell=True) *)
| Invoked (agent : Agent) (messages : list Item). (* Runner.run_streamed *)

(** The libraries and the host the program calls into, over the state [Env]
    of everything outside the program. *)
Class Externals (Env : Type) : Type := {
  (** [platform.system()] *)
  platform_system : Env -> attempt str;
  (** [subprocess.run(command, shell=True, capture_output=True, text=True)] *)
  subprocess_run : str -> Env -> attempt CompletedProcess * Env;
  (** [Runner.run_streamed(agent, messages)] with its events consumed *)
  Runner_run_streamed : Agent -> list Item -> Env -> attempt RunResult * Env;
  (** the line [input] reads from the terminal *)
  read_line : Env -> attempt str * Env;
  (** [load_dotenv()] *)
  load_dotenv : Env -> Env;
  (** [os.getenv(name)] *)
  os_getenv : str -> Env -> option str;
  (** [genai.configure(api_key=key)] *)
  genai_configure : option str -> Env -> attempt unit * Env;
  (** [final_output.model_dump_json(indent=2)] *)
  model_dump_json : StageOutput -> str
}.

Record World (Env : Type) : Type := mkWorld {
  env : Env;
  trace : list IOEvent
}.

(** ** The monad of the program *)

Definition M (Env A : Type) : Type := World Env -> outcome A * World Env.

Definition ret {Env A} (a : A) : M Env A := fun w => (Returned a, w).

(** What follows a computation that has ended: the continuation when it
    returned, and nothing otherwise. *)
Definition and_then {Env A B} (r : outcome A * World Env) (k : A -> M Env B)
  : outcome B * World Env :=
  match r with
  | (Returned a, w') => k a w'
  | (Raised e, w') => (Raised e, w')
  | (Exited c, w') => (Exited c, w')
  | (Unfinished, w') => (Unfinished, w')
  end.

Definition bind {Env A B} (m : M Env A) (k : A -> M Env B) : M Env B :=
  fun w => and_then (m w) k.

Definition raise {Env A} (e : exn) : M Env A := fun w => (Raised e, w).

(** [sys.exit(status)] *)
Definition sys_exit {Env A} (status : Z) : M Env A := fun w => (Exited status, w).

(** [try: body / except Exception as e: handler e] *)
Definition try_except {Env A} (body : M Env A) (handler : exn -> M Env A) : M Env A :=
  fun w =>
    match body w with
    | (Raised e, w') => handler e w'
    | r => r
    end.

Declare Scope prog_scope.
Delimit Scope prog_scope with prog.
Notation "x <- m ;; k" := (bind m (fun x => k))
  (at level 100, m at next level, right associativity) : prog_scope.
Notation "m ;; k" := (bind m (fun _ => k))
  (at level 100, right associativity) : prog_scope.
Local Open Scope prog_scope.

Definition emit {Env} (ev : IOEvent) : M Env unit :=
  fun w => (Returned tt, mkWorld (env w) (trace w ++ [ev])).

(** A call into the outside world: it moves the environment and answers,
    and its exception, if any, is raised in the program. *)
Definition call {Env A} (f : Env -> attempt A * Env) : M Env A :=
  fun w =>
    match f (env w) with
    | (Ok a, e') => (Returned a, mkWorld e' (trace w))
    | (Fail x, e') => (Raised x, mkWorld e' (trace w))
    end.

Definition newline : str := [10%N].

(** [print(text)]: the text and the line end. *)
Definition print {Env} (text : str) : M Env unit := emit (Printed (text ++ newline)).

(** [print(text, end="", flush=True)] *)
Definition print_noend {Env} (text : str) : M Env unit := emit (Printed text).

(** [print(text, file=sys.stderr)] *)
Definition print_stderr {Env} (text : str) : M Env unit :=
  emit (PrintedErr (text ++ newline)).

(** An [attempt] made inside the program. *)
Definition of_attempt {Env A} (a : attempt A) : M Env A :=
  match a with
  | Ok v => ret v
  | Fail e => raise e
  end.

(** [input(prompt)] *)
Definition input {Env} `{Externals Env} (prompt : str) : M Env str :=
  fun w =>
    let (answer, e') := read_line (env w) in
    of_attempt answer (mkWorld e' (trace w ++ [Asked prompt answer])).

(** The text an f-string puts for an [Optional[str]] field. *)
Definition format_optional (o : option str) : str :=
  match o with
  | Some s => s
  | None => lit "None"
  end.

Section Program.

Context {Env : Type} `{Ext : Externals Env}.

(** ** Shell tool adapter *)

(** [get_current_os()] *)
Definition get_current_os : M Env str :=
  fun w => of_attempt (platform_system (env w)) w.

(** [command.split()[0] if command else ''] *)
Definition failing_command_name (command : str) : attempt str :=
  if truthy command
  then match split command with
       | first :: _ => Ok first
       | [] => Fail (IndexError (lit "list index out of range"))
       end
  else Ok [].

Definition tool_result (out err : str) (code : Z) : jobject :=
  [(lit "stdout", JStr out); (lit "stderr", JStr err); (lit "return_code", JInt code)].

(** [execute_terminal_command(command)] *)
Definition execute_terminal_command (command : str) : M Env str :=
  try_except
    (emit (Spawned command) ;;
     result <- call (subprocess_run command) ;;
     ret (json_dumps (tool_result (stdout result) (stderr result) (returncode result))))
    (fun e =>
       match e with
       | FileNotFoundError _ =>
           first <- of_attempt (failing_command_name command) ;;
           let error_msg :=
             lit "Error: The shell or command '" ++ first ++ lit "' was not found." in
           print_stderr error_msg ;;
           ret (json_dumps (tool_result [] error_msg 127))
       | _ =>
           let error_msg :=
             lit "An unexpected error occurred while executing '" ++ command
               ++ lit "': " ++ str_of_exn e in
           print_stderr error_msg ;;
           ret (json_dumps (tool_result [] error_msg (-1)))
       end).

(** ** Narration of the stream events *)

Definition GREEN : str := 27%N :: lit "[92m".
Definition RESET : str := 27%N :: lit "[0m".

(** [parse_event(event)] *)
Definition parse_event (event : StreamEvent) : M Env unit :=
  match event with
  | llm_response_chunk raw_item => print_noend (GREEN ++ raw_item ++ RESET)
  | tool_called tool_name arguments =>
      print [] ;;
      print (GREEN ++ lit "> Tool Called: " ++ tool_name ++ RESET) ;;
      print (GREEN ++ lit "> Tool Args: " ++ arguments ++ RESET)
  | tool_output output => print (GREEN ++ lit "> Tool Output: " ++ output ++ RESET)
  | other_run_item _ => ret tt
  | agent_updated_stream_event new_agent =>
      print (GREEN ++ lit "> Current Agent: " ++ name new_agent ++ RESET)
  | other_event _ => ret tt
  end.

(** [async for event in result.stream_events(): parse_event(event)] *)
Fixpoint parse_events (events : list StreamEvent) : M Env unit :=
  match events with
  | [] => ret tt
  | event :: rest => parse_event event ;; parse_events rest
  end.

(** ** Agent roles *)

Definition ANALYZER_INSTRUCTIONS : str := lit "
Your goal is to thoroughly understand the client requirements and decide if they can be achieved or not with the available input files.
You are known for your exceptional ability to clearly understand the client's requirements and decide if those targets are achieveable using the available files and tools.
You will raise a flag if you find that we do not have the necessary files or tools to deliver the client's expectations.
".

Definition PLANNER_INSTRUCTIONS : str := lit "
You are an expert task planner.
You are known for your exceptional ability to understand the client requirements, the available inputs, the desired output and the available tools in hand to devise a detailed step-by-step plan.
Clearly understand the analysis client requirements, the analysis performed by the Client Requirements Analyst and the available input files and set out a detailed step by step plan to achieve the desired outcome.
".

Definition EXECUTOR_INSTRUCTIONS : str := lit "
You are an expert task executor. You are known for your exceptional ability to understand the given sequence of steps and execute them successfully using the available tools.
Execute the sequence of steps provided to you.
".

Definition QC_INSTRUCTIONS : str := lit "
You are an expert quality checker. You are known for your exceptional ability to understand the given client requirements and check if they have been satisfied or not.
Thoroughly understand the client requirements, compare it available files and check if all the requirements have been met or not.
You will raise a flag if you find that the client's expectations are not successfully met.
".

Definition gemini_model : str := lit "gemini-1.5-flash-latest".

Definition analyzer_agent : Agent :=
  mkAgent (lit "Client Requirements Analyst") ANALYZER_INSTRUCTIONS gemini_model
    [tool_get_current_os; tool_execute_terminal_command] AllRequirementsAnalysis.

Definition planner_agent : Agent :=
  mkAgent (lit "Senior Media Post-Production Task Planner") PLANNER_INSTRUCTIONS gemini_model
    [tool_get_current_os; tool_execute_terminal_command] AllPlannerSteps.

Definition executor_agent : Agent :=
  mkAgent (lit "Senior Media Post-Production Client Delivery Expert") EXECUTOR_INSTRUCTIONS
    gemini_model [tool_get_current_os; tool_execute_terminal_command] AllExecutorSteps.

Definition qc_agent : Agent :=
  mkAgent (lit "Senior Media Post-Production Quality Checker") QC_INSTRUCTIONS gemini_model
    [tool_get_current_os; tool_execute_terminal_command] AllQCSteps.

(** ** Interactive step runner *)

(** [Runner.run_streamed(agent, messages)] followed by the consumption of
    its events. *)
Definition run_streamed (agent : Agent) (messages : list Item) : M Env RunResult :=
  emit (Invoked agent messages) ;;
  result <- call (Runner_run_streamed agent messages) ;;
  parse_events (stream_events result) ;;
  ret result.

(** [process_step(agent, messages)].  The [while True] loop is unrolled at
    most [fuel] times; [Unfinished] means the loop had not been left by
    then. *)
Fixpoint process_step (fuel : nat) (agent : Agent) (messages : list Item)
  : M Env RunResult :=
  match fuel with
  | O => fun w => (Unfinished, w)
  | S fuel' =>
      result <- run_streamed agent messages ;;
      if any_user_input_required (final_output result)
      then
        print (newline ++ name (last_agent result) ++ lit " >> "
                 ++ format_optional (question_to_user (final_output result))) ;;
        user_input <- input (lit "User Response >> ") ;;
        let messages := to_input_list result in
        let messages := messages ++ [user_message user_input] in
        process_step fuel' agent messages
      else
        print newline ;;
        ret result
  end.

(** ** Pipeline orchestrator *)

Definition ANALYZER_PROMPT : str := lit "
OVERALL WORKFLOW: Analysis (We are here now) --> Task Planning --> Execution --> Quality Check
INSTRUCTIONS:
We need to deliver the media package as per the specifications mentioned in the client's requirements document.
Analyse the client requirements thoroughly and compare it to the available input files.
Decide if it is possible to achieve the expectations using the available input files and tools.

AVAILABLE TOOLS: You can use FFMPEG, FFPROBE, ImageMagick and other terminal commands as required.
WORKING FOLDER: ./assets (All input files and requirements are in this folder)
IMPORTANT: You are only an analyst. Do not perform any actions or modify any files.
ASK QUESTIONS: If you need user input, please ask.
".

Definition PLANNER_PROMPT : str := lit "
OVERALL WORKFLOW: Analysis --> Task Planning (We are here now) --> Execution --> Quality Check
INSTRUCTIONS:
Create a detailed step-by-step plan to achieve the desired output based on the previous analysis.
All tasks like transformation, extraction, renaming etc should be done in a separate sub-directory called 'temp'.
The 'temp' folder should be created in the './assets' folder. Creating this sub-directory should be the first step if it doesn't exist.
Each terminal command should be complete and self-contained.

CONTEXT: The output of the previous 'Analysis' step is attached above.
AVAILABLE TOOLS: You can use FFMPEG, FFPROBE, ImageMagick and other terminal commands.
WORKING FOLDER: ./assets
IMPORTANT: You are only a task planner. The actual execution will be performed later.
".

Definition EXECUTOR_PROMPT : str := lit "
OVERALL WORKFLOW: Analysis --> Task Planning --> Execution (We are here now) --> Quality Check
INSTRUCTIONS:
You have been provided with a step-by-step plan. Execute the plan and record your observations.
If any step fails, analyse the reason, make necessary modifications to the command if needed, and try again until it succeeds.

CONTEXT: The output of the previous 'Analysis' and 'Task Planning' steps are attached.
AVAILABLE TOOLS: You can use FFMPEG, FFPROBE, ImageMagick and other terminal commands.
WORKING FOLDER: ./assets
IMPORTANT: Keep task executions safe and localized to the working folder.
".

Definition QC_PROMPT : str := lit "
OVERALL WORKFLOW: Analysis --> Task Planning --> Execution --> Quality Check (We are here now)
INSTRUCTIONS:
Check if the available files (input files and generated files in the temp folder) satisfy the client's requirements.
You are allowed to make minor modifications if needed (like renaming files or cleaning up unnecessary files in the temp directory).

CONTEXT: The outputs of 'Analysis', 'Task Planning' and 'Execution' are attached.
AVAILABLE TOOLS: You can use FFMPEG, FFPROBE, ImageMagick and other terminal commands.
WORKING FOLDER: ./assets
IMPORTANT: Keep task executions safe and localized to the working folder.
".

(** [main()]; [fuel] bounds the loop of each [process_step]. *)
Definition main (fuel : nat) : M Env unit :=
  let messages := [user_message ANALYZER_PROMPT] in

  (* STEP 1: Analysis *)
  print (lit "----- STARTING ANALYSIS -----") ;;
  result_1 <- process_step fuel analyzer_agent messages ;;
  let output_1 := model_dump_json (final_output result_1) in
  print output_1 ;;

  let messages := to_input_list result_1 in
  let messages := messages ++ [user_message PLANNER_PROMPT] in

  (* STEP 2: Planning *)
  print (lit "----- STARTING PLANNING -----") ;;
  result_2 <- process_step fuel planner_agent messages ;;
  let output_2 := model_dump_json (final_output result_2) in
  print output_2 ;;

  let messages := to_input_list result_2 in
  let messages := messages ++ [user_message EXECUTOR_PROMPT] in

  (* STEP 3: Execution *)
  print (lit "----- STARTING EXECUTION -----") ;;
  result_3 <- process_step fuel executor_agent messages ;;
  let output_3 := model_dump_json (final_output result_3) in
  print output_3 ;;

  let messages := to_input_list result_3 in
  let messages := messages ++ [user_message QC_PROMPT] in

  (* STEP 4: QC *)
  print (lit "----- STARTING QUALITY CHECK -----") ;;
  result_4 <- process_step fuel qc_agent messages ;;
  let output_4 := model_dump_json (final_output result_4) in
  print output_4 ;;

  print (lit "----- WORKFLOW COMPLETE -----").

(** ** The module body, run as a script *)

(** The [try] around [genai.configure]. *)
Definition configure_gemini : M Env unit :=
  try_except
    (call (fun e => genai_configure (os_getenv (lit "GEMINI_API_KEY") e) e))
    (fun e =>
       print (lit "Error configuring Gemini API: " ++ str_of_exn e ++ newline
                ++ lit "Please ensure your GEMINI_API_KEY is set in the .env file.") ;;
       sys_exit 1).

(** The statements of the module in order: the environment file is loaded,
    the client is configured, and [asyncio.run(main())] runs the pipeline. *)
Definition script (fuel : nat) : M Env unit :=
  (fun w => (Returned tt, mkWorld (load_dotenv (env w)) (trace w))) ;;
  configure_gemini ;;
  main fuel.

End Program.

(** ** Reading JSON text back

    A reader of the JSON texts that are objects with string and integer
    members, to say what the text returned by the tool parses to.  It
    follows the JSON grammar: insignificant whitespace, the string escapes,
    escaped surrogate pairs joined into one code point, no control
    character inside a string, no leading zero in a number. *)

Definition is_ws (c : char) : bool :=
  ((c =? 32) || (c =? 9) || (c =? 10) || (c =? 13))%N.

Fixpoint skip_ws (s : str) : str :=
  match s with
  | c :: s' => if is_ws c then skip_ws s' else s
  | [] => []
  end.

Definition hex_value (c : char) : option N :=
  (if (48 <=? c) && (c <=? 57) then Some (c - 48)
   else if (97 <=? c) && (c <=? 102) then Some (c - 87)
   else if (65 <=? c) && (c <=? 70) then Some (c - 55)
   else None)%N.

Definition parse_hex4 (s : str) : option (N * str) :=
  match s with
  | a :: b :: c :: d :: rest =>
      match hex_value a, hex_value b, hex_value c, hex_value d with
      | Some a, Some b, Some c, Some d => Some ((((a * 16 + b) * 16 + c) * 16 + d)%N, rest)
      | _, _, _, _ => None
      end
  | _ => None
  end.

Definition is_high (n : N) : bool := ((55296 <=? n) && (n <=? 56319))%N.
Definition is_low (n : N) : bool := ((56320 <=? n) && (n <=? 57343))%N.

Definition join_surrogates (hi lo : N) : char :=
  (65536 + (hi - 55296) * 1024 + (lo - 56320))%N.

Definition simple_escape (c : char) : option char :=
  (if c =? 34 then Some 34
   else if c =? 92 then Some 92
   else if c =? 47 then Some 47
   else if c =? 98 then Some 8
   else if c =? 102 then Some 12
   else if c =? 110 then Some 10
   else if c =? 114 then Some 13
   else if c =? 116 then Some 9
   else None)%N.

(** What follows a backslash-u: one code unit, or an escaped surrogate pair
    joined into its code point. *)
Definition parse_u (s : str) : option (char * str) :=
  match parse_hex4 s with
  | None => None
  | Some (uni, rest) =>
      if is_high uni
      then match rest with
           | 92%N :: 117%N :: rest' =>
               match parse_hex4 rest' with
               | Some (uni2, rest'') =>
                   if is_low uni2 then Some (join_surrogates uni uni2, rest'')
                   else Some (uni, rest)
               | None => Some (uni, rest)
               end
           | _ => Some (uni, rest)
           end
      else Some (uni, rest)
  end.

Definition consed {A B} (a : A) (r : option (list A * B)) : option (list A * B) :=
  match r with
  | Some (l, b) => Some (a :: l, b)
  | None => None
  end.

(** The rest of a string after its opening quote: its code points and what
    follows the closing quote. *)
Fixpoint scanstring (fuel : nat) (s : str) : option (str * str) :=
  match fuel with
  | O => None
  | S fuel' =>
      match s with
      | [] => None
      | c :: rest =>
          if (c =? 34)%N then Some ([], rest)
          else if (c =? 92)%N then
            match rest with
            | [] => None
            | esc :: rest' =>
                if (esc =? 117)%N then
                  match parse_u rest' with
                  | Some (ch, rest'') => consed ch (scanstring fuel' rest'')
                  | None => None
                  end
                else
                  match simple_escape esc with
                  | Some ch => consed ch (scanstring fuel' rest')
                  | None => None
                  end
            end
          else if (c <? 32)%N then None
          else consed c (scanstring fuel' rest)
      end
  end.

Definition parse_string (s : str) : option (str * str) :=
  match s with
  | 34%N :: rest => scanstring (S (List.length rest)) rest
  | _ => None
  end.

(** The longest run of decimal digits at the head of [s]. *)
Fixpoint read_digits (s : str) : Decimal.uint * str :=
  match s with
  | [] => (Decimal.Nil, [])
  | c :: rest =>
      let (d, r) := read_digits rest in
      (if c =? 48 then (Decimal.D0 d, r)
       else if c =? 49 then (Decimal.D1 d, r)
       else if c =? 50 then (Decimal.D2 d, r)
       else if c =? 51 then (Decimal.D3 d, r)
       else if c =? 52 then (Decimal.D4 d, r)
       else if c =? 53 then (Decimal.D5 d, r)
       else if c =? 54 then (Decimal.D6 d, r)
       else if c =? 55 then (Decimal.D7 d, r)
       else if c =? 56 then (Decimal.D8 d, r)
       else if c =? 57 then (Decimal.D9 d, r)
       else (Decimal.Nil, s))%N
  end.

(** Digits form a JSON integer when there is one at least and no leading
    zero before another digit. *)
Definition well_formed_digits (d : Decimal.uint) : bool :=
  match d with
  | Decimal.Nil => false
  | _ => Decimal.uint_beq (Decimal.unorm d) d
  end.

Definition parse_int (s : str) : option (Z * str) :=
  match s with
  | 45%N :: rest =>
      let (d, r) := read_digits rest in
      if well_formed_digits d then Some (Z.of_int (Decimal.Neg d), r) else None
  | _ =>
      let (d, r) := read_digits s in
      if well_formed_digits d then Some (Z.of_int (Decimal.Pos d), r) else None
  end.

Definition parse_scalar (s : str) : option (scalar * str) :=
  match s with
  | 34%N :: _ =>
      match parse_string s with
      | Some (t, r) => Some (JStr t, r)
      | None => None
      end
  | _ =>
      match parse_int s with
      | Some (n, r) => Some (JInt n, r)
      | None => None
      end
  end.

(** The members of an object and what follows its closing brace. *)
Fixpoint parse_members (fuel : nat) (s : str) : option (jobject * str) :=
  match fuel with
  | O => None
  | S fuel' =>
      match parse_string s with
      | None => None
      | Some (key, s1) =>
          match skip_ws s1 with
          | 58%N :: s2 =>
              match parse_scalar (skip_ws s2) with
              | None => None
              | Some (v, s3) =>
                  match skip_ws s3 with
                  | 44%N :: s4 => consed (key, v) (parse_members fuel' (skip_ws s4))
                  | 125%N :: s4 => Some ([(key, v)], s4)
                  | _ => None
                  end
              end
          | _ => None
          end
      end
  end.

(** [json.loads] on such a text: the members of the object, in order. *)
Definition json_loads (s : str) : option jobject :=
  match skip_ws s with
  | 123%N :: s1 =>
      match skip_ws s1 with
      | 125%N :: s2 =>
          match skip_ws s2 with
          | [] => Some []
          | _ => None
          end
      | s1' =>
          match parse_members (List.length s1') s1' with
          | Some (kvs, s2) =>
              match skip_ws s2 with
              | [] => Some kvs
              | _ => None
              end
          | None => None
          end
      end
  | _ => None
  end.

(** What a string reads back as once written by [encode_basestring_ascii]:
    itself, except that two adjacent lone surrogates come back joined (and
    that a code point beyond the planes of Unicode, which no [str] holds,
    comes back reduced into them). *)
Fixpoint decoded (s : str) : str :=
  match s with
  | [] => []
  | c :: s' =>
      if (c <? 65536)%N
      then match s' with
           | d :: s'' =>
               if is_high c && is_low d
               then join_surrogates c d :: decoded s''
               else c :: decoded s'
           | [] => [c]
           end
      else (65536 + (c - 65536) mod 1048576)%N :: decoded s'
  end.

Definition decoded_scalar (v : scalar) : scalar :=
  match v with
  | JStr s => JStr (decoded s)
  | JInt n => JInt n
  end.

Definition decoded_object (o : jobject) : jobject :=
  map (fun kv => (decoded (fst kv), decoded_scalar (snd kv))) o.

(** ** Observations on traces *)

(** What [parse_event] prints for one event. *)
Definition narration_of (event : StreamEvent) : list IOEvent :=
  match event with
  | llm_response_chunk raw_item => [Printed (GREEN ++ raw_item ++ RESET)]
  | tool_called tool_name arguments =>
      [Printed ([] ++ newline);
       Printed ((GREEN ++ lit "> Tool Called: " ++ tool_name ++ RESET) ++ newline);
       Printed ((GREEN ++ lit "> Tool Args: " ++ arguments ++ RESET) ++ newline)]
  | tool_output output =>
      [Printed ((GREEN ++ lit "> Tool Output: " ++ output ++ RESET) ++ newline)]
  | other_run_item _ => []
  | agent_updated_stream_event new_agent =>
      [Printed ((GREEN ++ lit "> Current Agent: " ++ name new_agent ++ RESET) ++ newline)]
  | other_event _ => []
  end.

Definition narration (events : list StreamEvent) : list IOEvent :=
  flat_map narration_of events.

(** The line that puts the question of a result to the user, and the
    reading of the answer. *)
Definition question_shown (result : RunResult) : IOEvent :=
  Printed ((newline ++ name (last_agent result) ++ lit " >> "
              ++ format_optional (question_to_user (final_output result))) ++ newline).

Definition answer_read (answer : attempt str) : IOEvent :=
  Asked (lit "User Response >> ") answer.

(** The world after the lines [texts] have been printed. *)
Definition announced {Env} (w : World Env) (texts : list str) : World Env :=
  mkWorld (env w) (trace w ++ map (fun text => Printed (text ++ newline)) texts).

(** The agents the trace shows invoked, in order. *)
Fixpoint agents_invoked (t : list IOEvent) : list Agent :=
  match t with
  | [] => []
  | Invoked a _ :: t' => a :: agents_invoked t'
  | _ :: t' => agents_invoked t'
  end.

(** Agents are told apart by name. *)
Definition same_agent (a b : Agent) : bool := str_eqb (name a) (name b).

(** Consecutive invocations of one agent make one stage. *)
Fixpoint collapse (l : list Agent) : list Agent :=
  match l with
  | [] => []
  | a :: l' =>
      match l' with
      | b :: _ => if same_agent a b then collapse l' else a :: collapse l'
      | [] => [a]
      end
  end.

Definition stages_of (t : list IOEvent) : list Agent := collapse (agents_invoked t).

Definition pipeline : list Agent :=
  [analyzer_agent; planner_agent; executor_agent; qc_agent].

(** The state of the loop of [process_step] after [n] clarification rounds:
    the transcript and the world the next invocation starts from, when each
    of the [n] invocations so far asked for input and a line was read. *)
Fixpoint after_rounds {Env} `{Externals Env} (n : nat) (agent : Agent)
    (messages : list Item) (w : World Env) : option (list Item * World Env) :=
  match n with
  | O => Some (messages, w)
  | S n' =>
      match run_streamed agent messages w with
      | (Returned result, w1) =>
          if any_user_input_required (final_output result)
          then
            match (print (newline ++ name (last_agent result) ++ lit " >> "
                            ++ format_optional (question_to_user (final_output result))) ;;
                   input (lit "User Response >> "))%prog w1 with
            | (Returned user_input, w2) =>
                after_rounds n' agent (to_input_list result ++ [user_message user_input]) w2
            | _ => None
            end
          else None
      | _ => None
      end
  end.

(** ** A scripted environment

    A host whose answers are fixed in advance: the platform name, what the
    shell does with each command, the answers of the agent runtime in the
    order they will be given, the lines the user will type, the credential
    and the verdict of [genai.configure] on it. *)

Module Scripted.

Record env_t : Type := mk {
  host : attempt str;
  shell : str -> attempt CompletedProcess;
  replies : list (Agent -> list Item -> attempt RunResult);
  typed : list str;
  api_key : option str;
  configure : option str -> attempt unit
}.

Definition next_reply (agent : Agent) (messages : list Item) (e : env_t)
  : attempt RunResult * env_t :=
  match replies e with
  | r :: rest =>
      (r agent messages, mk (host e) (shell e) rest (typed e) (api_key e) (configure e))
  | [] => (Fail (OtherException (lit "the model provider cannot be reached")), e)
  end.

Definition next_line (e : env_t) : attempt str * env_t :=
  match typed e with
  | l :: rest => (Ok l, mk (host e) (shell e) (replies e) rest (api_key e) (configure e))
  | [] => (Fail (EOFError (lit "EOF when reading a line")), e)
  end.

Definition getenv (var : str) (e : env_t) : option str :=
  if str_eqb var (lit "GEMINI_API_KEY") then api_key e else None.

Definition dump (o : StageOutput) : str :=
  match o with
  | OutAnalysis a => lit "analysis: " ++ format_optional (ara_question_to_user a)
  | OutPlan p => lit "plan: " ++ format_optional (aps_question_to_user p)
  | OutExecution x => lit "execution: " ++ format_optional (aes_question_to_user x)
  | OutQC q =>
      lit "qc: " ++ (if all_requirements_satisfied q then lit "satisfied" else lit "unmet")
  end.

#[global] Instance externals : Externals env_t := {
  platform_system := host;
  subprocess_run := fun command e => (shell e command, e);
  Runner_run_streamed := next_reply;
  read_line := next_line;
  load_dotenv := fun e => e;
  os_getenv := getenv;
  genai_configure := fun key e => (configure e key, e);
  model_dump_json := dump
}.

(** A Linux host with a working shell that knows [echo hi] only, no reply
    of the runtime and no typed line, and a credential that is accepted. *)
Definition sh (command : str) : attempt CompletedProcess :=
  if str_eqb command (lit "echo hi")
  then Ok (mkCompleted (lit "hi" ++ newline) [] 0)
  else Ok (mkCompleted [] (lit "/bin/sh: 1: " ++ command ++ lit ": not found" ++ newline) 127).

Definition quiet : env_t :=
  mk (Ok (lit "Linux")) sh [] [] (Some (lit "k")) (fun _ => Ok tt).

(** The same host with its shell missing. *)
Definition no_shell : env_t :=
  mk (Ok (lit "Linux"))
     (fun _ => Fail (FileNotFoundError (lit "[Errno 2] No such file or directory: '/bin/sh'")))
     [] [] (Some (lit "k")) (fun _ => Ok tt).

(** A host on which spawning fails for another reason. *)
Definition no_memory : env_t :=
  mk (Ok (lit "Linux"))
     (fun _ => Fail (OtherException (lit "[Errno 12] Cannot allocate memory")))
     [] [] (Some (lit "k")) (fun _ => Ok tt).

(** The runtime answers [rs] in turn and the user types [ls]. *)
Definition session (rs : list (Agent -> list Item -> attempt RunResult)) (ls : list str)
  : env_t :=
  mk (Ok (lit "Linux")) sh rs ls (Some (lit "k")) (fun _ => Ok tt).

(** The credential is missing and [genai.configure] refuses that. *)
Definition no_key : env_t :=
  mk (Ok (lit "Linux")) sh [] [] None
     (fun key => match key with
                 | Some _ => Ok tt
                 | None => Fail (OtherException (lit "No API key was provided"))
                 end).

Definition start (e : env_t) : World env_t := mkWorld e [].

(** A value of the container of an agent with no step in it, the verdict
    [verdict], and the clarification request given. *)
Definition output_of (s : schema) (verdict ask : bool) (question : option str)
  : StageOutput :=
  match s with
  | AllRequirementsAnalysis =>
      OutAnalysis (Build_AllRequirementsAnalysis_t [] verdict ask question)
  | AllPlannerSteps => OutPlan (Build_AllPlannerSteps_t [] verdict ask question)
  | AllExecutorSteps => OutExecution (Build_AllExecutorSteps_t [] verdict ask question)
  | AllQCSteps => OutQC (Build_AllQCSteps_t [] verdict ask question)
  end.

(** The result of a run in which the agent said [text] without calling a
    tool: the transcript it was given, then its own turn. *)
Definition said (verdict ask : bool) (question : option str) (text : str)
    (agent : Agent) (messages : list Item) : RunResult :=
  mkRunResult [llm_response_chunk text]
    (output_of (output_type agent) verdict ask question) agent
    (messages ++ [Message (lit "assistant") text]).

(** The agent asks [question]. *)
Definition asks (question : str) (agent : Agent) (messages : list Item)
  : attempt RunResult :=
  Ok (said false true (Some question) question agent messages).

(** The agent completes its stage with the verdict [verdict]. *)
Definition completes (verdict : bool) (agent : Agent) (messages : list Item)
  : attempt RunResult :=
  Ok (said verdict false None (lit "done") agent messages).

(** Every agent completes its stage at once; the QC agent reports the
    requirements unmet. *)
Definition smooth : env_t :=
  session [completes true; completes true; completes true; completes false] [].

(** The planner asks once before it completes its stage. *)
Definition curious : env_t :=
  session [completes true; asks (lit "which codec?"); completes true; completes true;
           completes false]
          [lit "h264"].

(** The agent asks [n] times before it completes its stage. *)
Definition hesitant (n : nat) : env_t :=
  session (repeat (asks (lit "which file?")) n ++ [completes true])
          (repeat (lit "a.mp4") n).

End Scripted.

(** ** An insistent environment

    A runtime whose agents ask for clarification on every invocation and a
    user who answers every time; the state counts the lines read. *)

Module Insistent.

#[global] Instance externals : Externals nat := {
  platform_system := fun _ => Ok (lit "Linux");
  subprocess_run := fun command e => (Scripted.sh command, e);
  Runner_run_streamed := fun agent messages e =>
    (Scripted.asks (lit "which file?") agent messages, e);
  read_line := fun e => (Ok (lit "a.mp4"), S e);
  load_dotenv := fun e => e;
  os_getenv := fun _ _ => Some (lit "k");
  genai_configure := fun _ e => (Ok tt, e);
  model_dump_json := Scripted.dump
}.

End Insistent.

(** ** Further observations *)

(** A string with no word in it: every code point is a separator. *)
Definition blank (s : str) : bool := forallb isspace s.

(** The code points a decoded text holds: Unicode scalar values, so no
    surrogate and nothing beyond the last plane. *)
Definition scalar_value (c : char) : bool :=
  ((c <? 55296) || (57344 <=? c) && (c <? 1114112))%N.

Definition printable_ascii (c : char) : bool := ((32 <=? c) && (c <=? 126))%N.

Definition is_invocation (ev : IOEvent) : bool :=
  match ev with Invoked _ _ => true | _ => false end.

Definition is_answer (ev : IOEvent) : bool :=
  match ev with Asked _ _ => true | _ => false end.

Definition is_stdout (ev : IOEvent) : bool :=
  match ev with Printed _ => true | _ => false end.

Definition is_stderr (ev : IOEvent) : bool :=
  match ev with PrintedErr _ => true | _ => false end.

(** What the runner and the orchestrator do themselves: they print, read
    the terminal and invoke agents. *)
Definition is_orchestration (ev : IOEvent) : bool :=
  match ev with
  | Printed _ | Asked _ _ | Invoked _ _ => true
  | PrintedErr _ | Spawned _ => false
  end.

(** The number of events of a kind in a trace. *)
Definition count (kind : IOEvent -> bool) (t : list IOEvent) : nat :=
  List.length (filter kind t).


Definition returned {A} (o : outcome A) : bool :=
  match o with Returned _ => true | _ => false end.

(** ** Properties of the JSON text: what is written reads back *)

Section JsonFacts.

Local Open Scope N_scope.

(** Case analysis on the bits of a code point met by a match on a literal:
    every case but the literal itself computes. *)
Ltac by_bits p := repeat (destruct p as [p|p|]; try reflexivity).

Lemma parse_hex4_more (a b c d : char) (rest : str) (n : N) :
  parse_hex4 [a; b; c; d] = Some (n, []) ->
  parse_hex4 (a :: b :: c :: d :: rest) = Some (n, rest).
Proof.
  unfold parse_hex4.
  destruct (hex_value a), (hex_value b), (hex_value c), (hex_value d);
    try discriminate.
  intros H. injection H as <-. reflexivity.
Qed.

(** A check run on every number below a bound, counting upwards. *)
Lemma checked_below (check : N -> bool) (n : N) :
  N.iter n (fun p => (N.succ (fst p), snd p && check (fst p))) (0, true) = (n, true) ->
  forall k, k < n -> check k = true.
Proof.
  induction n as [|n IH] using N.peano_ind; intros H k Hk; [lia |].
  rewrite N.iter_succ in H.
  destruct (N.iter n _ (0, true)) as [i ok] eqn:E. cbn [fst snd] in H.
  injection H as Hi Hok. apply N.succ_inj in Hi. subst i.
  apply andb_prop in Hok. destruct Hok as [-> Hn].
  destruct (N.eq_dec k n) as [->|]; [assumption |].
  apply IH; [reflexivity | lia].
Qed.

(** The four hexadecimal digits of every code unit read back as it; checked
    on each of the 65536 code units. *)
Lemma u_escape_all_units :
  N.iter 65536
    (fun p => (N.succ (fst p),
               snd p && match parse_hex4 (tl (tl (u_escape (fst p)))) with
                        | Some (m, []) => m =? fst p
                        | _ => false
                        end)) (0, true) = (65536, true).
Proof. vm_compute. reflexivity. Qed.

Lemma parse_hex4_u_escape (n : N) (rest : str) :
  n < 65536 ->
  parse_hex4 (tl (tl (u_escape n)) ++ rest) = Some (n, rest).
Proof.
  intros Hn.
  pose proof (checked_below
                (fun k => match parse_hex4 (tl (tl (u_escape k))) with
                          | Some (m, []) => m =? k
                          | _ => false
                          end) u_escape_all_units Hn) as H.
  cbv beta in H.
  unfold u_escape in *. cbn [tl app] in *.
  destruct (parse_hex4 _) as [[m [|]]|] eqn:E in H; try discriminate.
  apply N.eqb_eq in H. subst m.
  now apply parse_hex4_more.
Qed.

(** The surrogates written for a code point beyond the basic plane carry
    its bits ten by ten; checked on each of the 1024 values of ten bits. *)
Lemma surrogate_halves :
  N.iter 1024
    (fun p => (N.succ (fst p),
               snd p && ((N.lor 55296 (fst p) =? 55296 + fst p)
                         && (N.lor 56320 (fst p) =? 56320 + fst p))))
    (0, true) = (1024, true).
Proof. vm_compute. reflexivity. Qed.

Lemma lor_high (x : N) : x < 1024 -> N.lor 55296 x = 55296 + x.
Proof.
  intros Hx.
  pose proof (checked_below
                (fun k => (N.lor 55296 k =? 55296 + k) && (N.lor 56320 k =? 56320 + k))
                surrogate_halves Hx) as H.
  cbv beta in H.
  apply andb_prop in H. now apply N.eqb_eq.
Qed.

Lemma lor_low (x : N) : x < 1024 -> N.lor 56320 x = 56320 + x.
Proof.
  intros Hx.
  pose proof (checked_below
                (fun k => (N.lor 55296 k =? 55296 + k) && (N.lor 56320 k =? 56320 + k))
                surrogate_halves Hx) as H.
  cbv beta in H.
  apply andb_prop in H. now apply N.eqb_eq.
Qed.

Lemma land_1023 (n : N) : N.land n 1023 = n mod 1024.
Proof. change 1023 with (N.ones 10). now rewrite N.land_ones. Qed.

Lemma is_high_spec (n : N) : is_high n = true <-> 55296 <= n <= 56319.
Proof. unfold is_high. rewrite andb_true_iff, !N.leb_le. tauto. Qed.

Lemma is_low_spec (n : N) : is_low n = true <-> 56320 <= n <= 57343.
Proof. unfold is_low. rewrite andb_true_iff, !N.leb_le. tauto. Qed.

Lemma is_high_false (n : N) : n < 55296 \/ 56319 < n -> is_high n = false.
Proof.
  intros H. destruct (is_high n) eqn:E; [| reflexivity].
  apply is_high_spec in E. lia.
Qed.

Lemma is_low_false (n : N) : n < 56320 \/ 57343 < n -> is_low n = false.
Proof.
  intros H. destruct (is_low n) eqn:E; [| reflexivity].
  apply is_low_spec in E. lia.
Qed.

(** How a code point is written: one of four ways. *)
Lemma escape_char_cases (c : char) :
  (exists e, escape_char c = [92; e] /\ e <> 117 /\ simple_escape e = Some c /\ c < 128)
  \/ (escape_char c = [c] /\ c <> 34 /\ c <> 92 /\ 32 <= c < 128)
  \/ (escape_char c = u_escape c /\ c < 65536)
  \/ (65536 <= c /\
      escape_char c =
        u_escape (N.lor 55296 (N.land (N.shiftr (c - 65536) 10) 1023))
          ++ u_escape (N.lor 56320 (N.land (c - 65536) 1023))).
Proof.
  unfold escape_char.
  destruct (N.eqb_spec c 34) as [->|H34];
    [left; exists 34; repeat split; (discriminate || lia) |].
  destruct (N.eqb_spec c 92) as [->|H92];
    [left; exists 92; repeat split; (discriminate || lia) |].
  destruct (N.eqb_spec c 8) as [->|H8];
    [left; exists 98; repeat split; (discriminate || lia) |].
  destruct (N.eqb_spec c 12) as [->|H12];
    [left; exists 102; repeat split; (discriminate || lia) |].
  destruct (N.eqb_spec c 10) as [->|H10];
    [left; exists 110; repeat split; (discriminate || lia) |].
  destruct (N.eqb_spec c 13) as [->|H13];
    [left; exists 114; repeat split; (discriminate || lia) |].
  destruct (N.eqb_spec c 9) as [->|H9];
    [left; exists 116; repeat split; (discriminate || lia) |].
  destruct (N.leb_spec 32 c); cbn [andb].
  - destruct (N.leb_spec c 126).
    + right; left. repeat split; (assumption || lia).
    + destruct (N.ltb_spec c 65536).
      * right; right; left. now split.
      * right; right; right. now split.
  - right; right; left. split; [| lia].
    destruct (N.ltb_spec c 65536); [reflexivity | lia].
Qed.

Lemma scanstring_eq (fuel : nat) (c : char) (rest : str) :
  scanstring (S fuel) (c :: rest) =
    if c =? 34 then Some ([], rest)
    else if c =? 92 then
      match rest with
      | [] => None
      | esc :: rest' =>
          if esc =? 117 then
            match parse_u rest' with
            | Some (ch, rest'') => consed ch (scanstring fuel rest'')
            | None => None
            end
          else
            match simple_escape esc with
            | Some ch => consed ch (scanstring fuel rest')
            | None => None
            end
      end
    else if c <? 32 then None
    else consed c (scanstring fuel rest).
Proof. reflexivity. Qed.

Lemma decoded_eq (c : char) (s' : str) :
  decoded (c :: s') =
    if c <? 65536
    then match s' with
         | d :: s'' =>
             if is_high c && is_low d
             then join_surrogates c d :: decoded s''
             else c :: decoded s'
         | [] => [c]
         end
    else (65536 + (c - 65536) mod 1048576) :: decoded s'.
Proof. reflexivity. Qed.

Lemma decoded_cons_unit (c : char) (s' : str) :
  c < 65536 -> is_high c = false -> decoded (c :: s') = c :: decoded s'.
Proof.
  intros Hc Hh. rewrite decoded_eq.
  destruct (N.ltb_spec c 65536); [| lia].
  rewrite Hh. destruct s'; reflexivity.
Qed.

Lemma length_u_escape (n : N) : List.length (u_escape n) = 6%nat.
Proof. reflexivity. Qed.

Lemma u_escape_eq (n : N) : u_escape n = 92 :: 117 :: tl (tl (u_escape n)).
Proof. reflexivity. Qed.

(** A low surrogate is written with its four digits. *)
Lemma escape_char_low (d : char) : is_low d = true -> escape_char d = u_escape d.
Proof.
  intros H. apply is_low_spec in H.
  destruct (escape_char_cases d) as [(e & _ & _ & _ & Hd)|[(_ & _ & _ & Hd)|[(E & _)|(Hd & _)]]];
    (assumption || lia).
Qed.

(** What is read after the backslash-u of a unit [c] that is followed by
    the text of [s'] and the closing quote. *)
Lemma parse_u_unit (c : char) (s' rest : str) :
  c < 65536 ->
  parse_u (tl (tl (u_escape c)) ++ flat_map escape_char s' ++ 34 :: rest) =
    match s' with
    | d :: s'' =>
        if is_high c && is_low d
        then Some (join_surrogates c d, flat_map escape_char s'' ++ 34 :: rest)
        else Some (c, flat_map escape_char s' ++ 34 :: rest)
    | [] => Some (c, flat_map escape_char s' ++ 34 :: rest)
    end.
Proof.
  intros Hc. unfold parse_u. rewrite parse_hex4_u_escape by assumption.
  destruct (is_high c) eqn:Hh.
  2:{ destruct s'; reflexivity. }
  destruct s' as [|d s'']; [reflexivity |].
  cbn [flat_map andb].
  destruct (is_low d) eqn:Hl.
  - rewrite (escape_char_low _ Hl), u_escape_eq. cbn [app].
    assert (Hd : d < 65536) by (apply is_low_spec in Hl; lia).
    rewrite <- app_assoc, parse_hex4_u_escape by assumption.
    rewrite Hl. reflexivity.
  - destruct (escape_char_cases d)
      as [(e & E & He & _)|[(E & _ & H92 & _)|[(E & Hd)|(Hd & E)]]]; rewrite E.
    + cbn [app]. destruct (N.eqb_spec e 117); [contradiction |].
      destruct e as [|p]; [reflexivity |].
      by_bits p; contradiction.
    + cbn [app]. destruct d as [|p]; [reflexivity |].
      by_bits p; contradiction.
    + rewrite u_escape_eq. cbn [app].
      rewrite <- app_assoc, parse_hex4_u_escape by assumption.
      rewrite Hl. reflexivity.
    + rewrite <- app_assoc, u_escape_eq. cbn [app].
      rewrite <- app_assoc, parse_hex4_u_escape.
      * rewrite is_low_false; [reflexivity |].
        rewrite lor_high by (rewrite land_1023; apply N.mod_lt; discriminate).
        left. rewrite land_1023.
        pose proof (N.mod_lt (N.shiftr (d - 65536) 10) 1024). lia.
      * rewrite lor_high by (rewrite land_1023; apply N.mod_lt; discriminate).
        rewrite land_1023.
        pose proof (N.mod_lt (N.shiftr (d - 65536) 10) 1024). lia.
Qed.

(** What is read after the backslash-u of the pair written for a code point
    beyond the basic plane. *)
Lemma parse_u_pair (c : char) (tail : str) :
  65536 <= c ->
  parse_u (tl (tl (u_escape (N.lor 55296 (N.land (N.shiftr (c - 65536) 10) 1023))))
             ++ u_escape (N.lor 56320 (N.land (c - 65536) 1023)) ++ tail) =
    Some (65536 + (c - 65536) mod 1048576, tail).
Proof.
  intros Hc. set (n := c - 65536).
  assert (Hx : N.land (N.shiftr n 10) 1023 < 1024)
    by (rewrite land_1023; apply N.mod_lt; discriminate).
  assert (Hy : N.land n 1023 < 1024)
    by (rewrite land_1023; apply N.mod_lt; discriminate).
  rewrite (lor_high Hx), (lor_low Hy).
  unfold parse_u. rewrite parse_hex4_u_escape by lia.
  replace (is_high (55296 + N.land (N.shiftr n 10) 1023)) with true
    by (symmetry; apply is_high_spec; lia).
  rewrite u_escape_eq. cbn [app]. rewrite parse_hex4_u_escape by lia.
  replace (is_low (56320 + N.land n 1023)) with true
    by (symmetry; apply is_low_spec; lia).
  f_equal. f_equal. unfold join_surrogates.
  rewrite !land_1023, N.shiftr_div_pow2.
  change (2 ^ 10) with 1024. change 1048576 with (1024 * 1024).
  rewrite N.Div0.mod_mul_r.
  generalize ((n / 1024) mod 1024) (n mod 1024). intros a b. lia.
Qed.

(** A string written by [encode_basestring_ascii] reads back, up to the
    closing quote, as [decoded] says. *)
Lemma scanstring_escaped (n : nat) :
  forall (s rest : str) (fuel : nat),
    (List.length s <= n)%nat ->
    (List.length (flat_map escape_char s) < fuel)%nat ->
    scanstring fuel (flat_map escape_char s ++ 34 :: rest) = Some (decoded s, rest).
Proof.
  induction n as [|n IH]; intros s rest fuel Hn Hf.
  - destruct s; [| cbn in Hn; lia]. destruct fuel; [lia | reflexivity].
  - destruct s as [|c s']; [destruct fuel; [lia | reflexivity] |].
    cbn [flat_map List.length] in *. rewrite length_app in Hf.
    destruct fuel as [|fuel]; [lia |].
    rewrite <- app_assoc.
    destruct (escape_char_cases c)
      as [(e & E & He & Hs & Hc)|[(E & H34 & H92 & Hc)|[(E & Hc)|(Hc & E)]]];
      rewrite E in *.
    + cbn [app List.length] in *. rewrite scanstring_eq.
      change (92 =? 34) with false. change (92 =? 92) with true. cbv iota.
      destruct (N.eqb_spec e 117); [contradiction |].
      rewrite Hs, IH by lia.
      rewrite decoded_cons_unit by (try apply is_high_false; lia). reflexivity.
    + cbn [app List.length] in *. rewrite scanstring_eq.
      destruct (N.eqb_spec c 34); [contradiction |].
      destruct (N.eqb_spec c 92); [contradiction |].
      destruct (N.ltb_spec c 32); [lia |].
      rewrite IH by lia.
      rewrite decoded_cons_unit by (try apply is_high_false; lia). reflexivity.
    + rewrite length_u_escape in Hf. rewrite u_escape_eq. cbn [app].
      rewrite scanstring_eq.
      change (92 =? 34) with false. change (92 =? 92) with true.
      change (117 =? 117) with true. cbv iota.
      rewrite parse_u_unit by assumption. rewrite decoded_eq.
      destruct (N.ltb_spec c 65536); [| lia].
      destruct s' as [|d s''].
      * rewrite IH by (cbn in *; lia). reflexivity.
      * destruct (is_high c && is_low d).
        -- rewrite IH; [reflexivity | cbn in Hn; lia |].
           cbn [flat_map] in Hf. rewrite length_app in Hf. lia.
        -- rewrite IH; [reflexivity | cbn in *; lia | lia].
    + rewrite length_app, !length_u_escape in Hf.
      rewrite <- app_assoc, u_escape_eq. cbn [app].
      rewrite scanstring_eq.
      change (92 =? 34) with false. change (92 =? 92) with true.
      change (117 =? 117) with true. cbv iota.
      rewrite parse_u_pair by assumption. rewrite decoded_eq.
      destruct (N.ltb_spec c 65536); [lia |].
      rewrite IH by lia. reflexivity.
Qed.

Lemma parse_string_encoded (s rest : str) :
  parse_string (encode_basestring_ascii s ++ rest) = Some (decoded s, rest).
Proof.
  unfold encode_basestring_ascii, parse_string. cbn [app].
  rewrite <- app_assoc. cbn [app].
  apply scanstring_escaped with (n := List.length s); [lia |].
  rewrite length_app. cbn. lia.
Qed.

Lemma decoded_nil_iff (s : str) : decoded s = [] <-> s = [].
Proof.
  split; [| intros ->; reflexivity].
  destruct s as [|c s']; [reflexivity |].
  rewrite decoded_eq. destruct (c <? 65536); [| discriminate].
  destruct s' as [|d s'']; [discriminate |].
  destruct (is_high c && is_low d); discriminate.
Qed.

(** Printable ASCII reads back as it was. *)
Lemma decoded_ascii (s : str) : Forall (fun c => c < 128) s -> decoded s = s.
Proof.
  induction 1 as [|c s' Hc _ IH]; [reflexivity |].
  rewrite decoded_cons_unit, IH; [reflexivity | lia | apply is_high_false; lia].
Qed.

Lemma read_digits_eq (c : char) (rest : str) :
  read_digits (c :: rest) =
    let (d, r) := read_digits rest in
    if c =? 48 then (Decimal.D0 d, r)
    else if c =? 49 then (Decimal.D1 d, r)
    else if c =? 50 then (Decimal.D2 d, r)
    else if c =? 51 then (Decimal.D3 d, r)
    else if c =? 52 then (Decimal.D4 d, r)
    else if c =? 53 then (Decimal.D5 d, r)
    else if c =? 54 then (Decimal.D6 d, r)
    else if c =? 55 then (Decimal.D7 d, r)
    else if c =? 56 then (Decimal.D8 d, r)
    else if c =? 57 then (Decimal.D9 d, r)
    else (Decimal.Nil, c :: rest).
Proof. reflexivity. Qed.

Lemma read_digits_chars (d : Decimal.uint) (c : char) (r : str) :
  c < 48 \/ 57 < c ->
  read_digits (chars_of_uint d ++ c :: r) = (d, c :: r).
Proof.
  intros Hc.
  induction d; cbn [chars_of_uint app]; rewrite read_digits_eq;
    try (rewrite IHd; reflexivity).
  destruct (read_digits r).
  repeat (match goal with
          | |- context [?a =? ?b] => destruct (N.eqb_spec a b); [lia |]
          end).
  reflexivity.
Qed.

Lemma unorm_to_uint (p : positive) : Decimal.unorm (Pos.to_uint p) = Pos.to_uint p.
Proof.
  rewrite <- (DecimalPos.Unsigned.to_of (Pos.to_uint p)).
  now rewrite DecimalPos.Unsigned.of_to.
Qed.

Lemma well_formed_to_uint (p : positive) : well_formed_digits (Pos.to_uint p) = true.
Proof.
  unfold well_formed_digits. rewrite unorm_to_uint.
  pose proof (DecimalPos.Unsigned.to_uint_nonnil p) as Hnil.
  destruct (Pos.to_uint p) eqn:E; try contradiction;
    now apply Decimal.internal_uint_dec_lb.
Qed.

(** The text of an integer begins with a digit or the minus sign. *)
Lemma repr_int_head (n : Z) :
  exists h t, repr_int n = h :: t /\ (h = 45 \/ 48 <= h <= 57).
Proof.
  unfold repr_int. destruct n as [|p|p]; cbn [Z.to_int].
  - exists 48, []. split; [reflexivity | lia].
  - pose proof (DecimalPos.Unsigned.to_uint_nonnil p) as Hnil.
    destruct (Pos.to_uint p); try contradiction; cbn [chars_of_uint];
      eexists _, _; (split; [reflexivity | lia]).
  - eexists _, _. split; [reflexivity | lia].
Qed.

Lemma parse_int_unsigned (h : char) (t : str) :
  h <> 45 ->
  parse_int (h :: t) =
    let (d, r) := read_digits (h :: t) in
    if well_formed_digits d then Some (Z.of_int (Decimal.Pos d), r) else None.
Proof.
  intros Hh. unfold parse_int. destruct h as [|p]; [reflexivity |].
  by_bits p. contradiction.
Qed.

Lemma parse_int_repr (n : Z) (c : char) (r : str) :
  c < 48 \/ 57 < c ->
  parse_int (repr_int n ++ c :: r) = Some (n, c :: r).
Proof.
  intros Hc. rewrite <- (DecimalZ.of_to n) at 2.
  unfold repr_int. destruct n as [|p|p]; cbn [Z.to_int].
  - cbn [chars_of_uint app]. rewrite parse_int_unsigned by discriminate.
    change (48 :: c :: r) with (chars_of_uint (Decimal.D0 Decimal.Nil) ++ c :: r).
    rewrite read_digits_chars by assumption. reflexivity.
  - pose proof (DecimalPos.Unsigned.to_uint_nonnil p) as Hnil.
    pose proof (well_formed_to_uint p) as Hwf.
    pose proof (read_digits_chars (Pos.to_uint p) r Hc) as Hrd.
    destruct (Pos.to_uint p) eqn:E; try contradiction; cbn [chars_of_uint app] in *;
      rewrite parse_int_unsigned by discriminate; rewrite Hrd, Hwf; reflexivity.
  - cbn [app]. unfold parse_int.
    rewrite read_digits_chars by assumption.
    now rewrite well_formed_to_uint.
Qed.

Lemma parse_scalar_number (h : char) (t : str) :
  h <> 34 ->
  parse_scalar (h :: t) =
    match parse_int (h :: t) with
    | Some (n, r) => Some (JInt n, r)
    | None => None
    end.
Proof.
  intros Hh. unfold parse_scalar. destruct h as [|p]; [reflexivity |].
  by_bits p. contradiction.
Qed.

Lemma parse_scalar_dumped (v : scalar) (c : char) (r : str) :
  c < 48 \/ 57 < c ->
  parse_scalar (dumps_scalar v ++ c :: r) = Some (decoded_scalar v, c :: r).
Proof.
  intros Hc. destruct v as [s|n]; cbn [dumps_scalar decoded_scalar].
  - pose proof (parse_string_encoded s (c :: r)) as H.
    unfold encode_basestring_ascii in *. cbn [app] in *.
    unfold parse_scalar. now rewrite H.
  - pose proof (parse_int_repr n r Hc) as H.
    destruct (repr_int_head n) as (h & t & E & Hh). rewrite E in *.
    cbn [app] in *. rewrite parse_scalar_number by lia. now rewrite H.
Qed.

Lemma skip_ws_stop (h : char) (t : str) : is_ws h = false -> skip_ws (h :: t) = h :: t.
Proof. intros H. cbn [skip_ws]. now rewrite H. Qed.

Lemma skip_ws_space (t : str) : skip_ws (32 :: t) = skip_ws t.
Proof. reflexivity. Qed.

(** The text of a value begins with no whitespace. *)
Lemma dumps_scalar_head (v : scalar) :
  exists h t, dumps_scalar v = h :: t /\ is_ws h = false.
Proof.
  destruct v as [s|n]; cbn [dumps_scalar].
  - eexists _, _. split; reflexivity.
  - destruct (repr_int_head n) as (h & t & E & Hh). exists h, t. split; [assumption |].
    unfold is_ws.
    repeat (match goal with
            | |- context [?a =? ?b] => destruct (N.eqb_spec a b); [lia |]
            end).
    reflexivity.
Qed.

Lemma parse_members_eq (fuel : nat) (s : str) :
  parse_members (S fuel) s =
    match parse_string s with
    | None => None
    | Some (key, s1) =>
        match skip_ws s1 with
        | 58 :: s2 =>
            match parse_scalar (skip_ws s2) with
            | None => None
            | Some (v, s3) =>
                match skip_ws s3 with
                | 44 :: s4 => consed (key, v) (parse_members fuel (skip_ws s4))
                | 125 :: s4 => Some ([(key, v)], s4)
                | _ => None
                end
            end
        | _ => None
        end
    end.
Proof. reflexivity. Qed.

(** One member, followed by a comma or the closing brace, reads back. *)
Lemma parse_member_dumped (fuel : nat) (kv : str * scalar) (c : char) (r : str) :
  c = 44 \/ c = 125 ->
  parse_members (S fuel) (dumps_member kv ++ c :: r) =
    if c =? 44
    then consed (decoded (fst kv), decoded_scalar (snd kv)) (parse_members fuel (skip_ws r))
    else Some ([(decoded (fst kv), decoded_scalar (snd kv))], r).
Proof.
  intros Hc. rewrite parse_members_eq. unfold dumps_member.
  rewrite <- app_assoc, parse_string_encoded.
  change (lit ": ") with [58; 32]. cbn [app].
  rewrite skip_ws_stop by reflexivity. cbv beta iota.
  rewrite skip_ws_space.
  destruct (dumps_scalar_head (snd kv)) as (h & t & E & Hh).
  replace (skip_ws (dumps_scalar (snd kv) ++ c :: r))
    with (dumps_scalar (snd kv) ++ c :: r)
    by (rewrite E; cbn [app]; now rewrite skip_ws_stop).
  rewrite parse_scalar_dumped by lia.
  destruct Hc as [-> | ->]; rewrite skip_ws_stop by reflexivity; reflexivity.
Qed.

Lemma dumps_members_head (kv : str * scalar) (l : jobject) :
  exists t, dumps_members (kv :: l) = 34 :: t.
Proof. destruct l; cbn [dumps_members]; eexists; reflexivity. Qed.

(** The members of a non-empty object, followed by the closing brace, read
    back. *)
Lemma parse_members_dumped (o : jobject) :
  o <> [] ->
  forall (rest : str) (fuel : nat),
    (List.length o <= fuel)%nat ->
    parse_members fuel (dumps_members o ++ 125 :: rest) = Some (decoded_object o, rest).
Proof.
  induction o as [|kv l IH]; [contradiction |].
  intros _ rest fuel Hf. destruct fuel as [|fuel]; [cbn in Hf; lia |].
  destruct l as [|kv' l].
  - cbn [dumps_members]. rewrite parse_member_dumped by lia. reflexivity.
  - change (dumps_members (kv :: kv' :: l))
      with (dumps_member kv ++ lit ", " ++ dumps_members (kv' :: l)).
    change (lit ", ") with [44; 32].
    rewrite <- app_assoc. cbn [app].
    rewrite parse_member_dumped by lia.
    change (44 =? 44) with true. cbv iota.
    rewrite skip_ws_space.
    destruct (dumps_members_head kv' l) as (t & E).
    replace (skip_ws (dumps_members (kv' :: l) ++ 125 :: rest))
      with (dumps_members (kv' :: l) ++ 125 :: rest)
      by (rewrite E; cbn [app]; now rewrite skip_ws_stop).
    rewrite IH; [reflexivity | discriminate | cbn in *; lia].
Qed.

Lemma length_dumps_members (o : jobject) :
  (List.length o <= List.length (dumps_members o ++ [125%N]))%nat.
Proof.
  induction o as [|kv l IH]; [cbn; lia |].
  destruct l as [|kv' l].
  - cbn [dumps_members List.length]. unfold dumps_member, encode_basestring_ascii.
    cbn [app List.length]. lia.
  - change (dumps_members (kv :: kv' :: l))
      with (dumps_member kv ++ lit ", " ++ dumps_members (kv' :: l)).
    unfold dumps_member at 1, encode_basestring_ascii at 1.
    rewrite <- !app_assoc. cbn [app List.length].
    rewrite !length_app. rewrite length_app in IH. cbn [List.length] in *. lia.
Qed.

(** What [json.dumps] writes, [json.loads] reads back: the same members in
    the same order, the integers unchanged, the strings as [decoded]
    says. *)
Lemma json_loads_dumps (o : jobject) :
  json_loads (json_dumps o) = Some (decoded_object o).
Proof.
  unfold json_loads, json_dumps. rewrite skip_ws_stop by reflexivity.
  cbv beta iota.
  destruct o as [|kv l]; [reflexivity |].
  destruct (dumps_members_head kv l) as (t & E).
  pose proof (length_dumps_members (kv :: l)) as Hlen.
  pose proof (@parse_members_dumped (kv :: l) ltac:(discriminate) []
                (List.length (dumps_members (kv :: l) ++ [125])) Hlen) as H.
  rewrite E in *. cbn [app] in *.
  rewrite skip_ws_stop by reflexivity. cbv beta iota.
  match goal with
  | |- context [parse_members ?f ?x] =>
      replace (parse_members f x) with (Some (decoded_object (kv :: l), @nil char))
        by (symmetry; exact H)
  end.
  reflexivity.
Qed.

End JsonFacts.
(** ** Properties of traces *)

Lemma agents_invoked_app (t1 t2 : list IOEvent) :
  agents_invoked (t1 ++ t2) = agents_invoked t1 ++ agents_invoked t2.
Proof.
  induction t1 as [|ev t1 IH]; [reflexivity |].
  destruct ev; cbn [app agents_invoked]; rewrite IH; reflexivity.
Qed.

(** ** Properties of the shell tool adapter *)

Section ToolFacts.

Context {Env : Type} `{Ext : Externals Env}.

Lemma lit_app_nonempty (a : ascii) (s : string) (t : str) :
  lit (String a s) ++ t <> [].
Proof. discriminate. Qed.

(** What the tool does when the command ran: it returns the three captured
    values. *)
Lemma execute_terminal_command_completed (command : str) (w : World Env) result e' :
  subprocess_run command (env w) = (Ok result, e') ->
  execute_terminal_command command w =
    (Returned (json_dumps (tool_result (stdout result) (stderr result) (returncode result))),
     mkWorld e' (trace w ++ [Spawned command])).
Proof.
  intros H. unfold execute_terminal_command, try_except, bind, and_then, emit, call, ret.
  cbn. rewrite H. reflexivity.
Qed.

(** What the tool does when [subprocess.run] raises [FileNotFoundError]. *)
Lemma execute_terminal_command_not_found (command : str) (w : World Env) m e' :
  subprocess_run command (env w) = (Fail (FileNotFoundError m), e') ->
  execute_terminal_command command w =
    match failing_command_name command with
    | Ok first =>
        let error_msg :=
          lit "Error: The shell or command '" ++ first ++ lit "' was not found." in
        (Returned (json_dumps (tool_result [] error_msg 127)),
         mkWorld e' (trace w ++ [Spawned command] ++ [PrintedErr (error_msg ++ newline)]))
    | Fail x => (Raised x, mkWorld e' (trace w ++ [Spawned command]))
    end.
Proof.
  intros H. unfold execute_terminal_command, try_except, bind, and_then, emit, call, ret.
  cbn. rewrite H. cbn.
  destruct (failing_command_name command); cbn; [| reflexivity].
  rewrite <- app_assoc. reflexivity.
Qed.

(** What the tool does when [subprocess.run] raises anything else. *)
Lemma execute_terminal_command_fault (command : str) (w : World Env) x e' :
  subprocess_run command (env w) = (Fail x, e') ->
  (forall m, x <> FileNotFoundError m) ->
  let error_msg :=
    lit "An unexpected error occurred while executing '" ++ command
      ++ lit "': " ++ str_of_exn x in
  execute_terminal_command command w =
    (Returned (json_dumps (tool_result [] error_msg (-1))),
     mkWorld e' (trace w ++ [Spawned command] ++ [PrintedErr (error_msg ++ newline)])).
Proof.
  intros H Hx. unfold execute_terminal_command, try_except, bind, and_then, emit, call, ret.
  cbn. rewrite H. cbn.
  destruct x; cbn; try (rewrite <- app_assoc; reflexivity).
  exfalso. eapply Hx. reflexivity.
Qed.

End ToolFacts.

(** [str.split] on a few commands. *)
Example split_words : split (lit "  ffmpeg  -i a.mp4 ") = [lit "ffmpeg"; lit "-i"; lit "a.mp4"].
Proof. reflexivity. Qed.

Example split_blank : split (lit "   ") = [].
Proof. reflexivity. Qed.

Example failing_command_name_first_word :
  failing_command_name (lit "ffmpeg -i a.mp4") = Ok (lit "ffmpeg").
Proof. reflexivity. Qed.

Example failing_command_name_blank :
  failing_command_name (lit " ") = Fail (IndexError (lit "list index out of range")).
Proof. reflexivity. Qed.

(** The tool on a working host: the command that prints, and a command the
    shell does not know, which the shell itself reports with the code 127. *)
Example echo_hi :
  match execute_terminal_command (lit "echo hi") (Scripted.start Scripted.quiet) with
  | (Returned v, _) => json_loads v
  | _ => None
  end = Some [(lit "stdout", JStr (lit "hi" ++ newline)); (lit "stderr", JStr []);
              (lit "return_code", JInt 0)].
Proof. reflexivity. Qed.

Example unknown_command :
  match execute_terminal_command (lit "nonexistent-cmd-xyz")
          (Scripted.start Scripted.quiet) with
  | (Returned v, _) => json_loads v
  | _ => None
  end = Some [(lit "stdout", JStr []);
              (lit "stderr",
               JStr (lit "/bin/sh: 1: nonexistent-cmd-xyz: not found" ++ newline));
              (lit "return_code", JInt 127)].
Proof. reflexivity. Qed.

Section ToolClaims.

Context {Env : Type} `{Ext : Externals Env}.

Lemma decoded_tool_result (out err : str) (code : Z) :
  decoded_object (tool_result out err code) = tool_result (decoded out) (decoded err) code.
Proof. reflexivity. Qed.

(** Whenever the command has a word in it, or is empty, the tool returns,
    whatever [subprocess.run] did. *)
Lemma execute_terminal_command_returns (command : str) (w : World Env) :
  command = [] \/ split command <> [] ->
  exists v w', execute_terminal_command command w = (Returned v, w').
Proof.
  intros Hc.
  destruct (subprocess_run command (env w)) as [[result|x] e'] eqn:E.
  - rewrite (execute_terminal_command_completed _ _ E). eauto.
  - assert (Hx : (exists m, x = FileNotFoundError m) \/ forall m, x <> FileNotFoundError m)
      by (destruct x; ((left; eexists; reflexivity) || (right; discriminate))).
    destruct Hx as [[m ->]|Hx].
    + rewrite (execute_terminal_command_not_found _ _ E).
      unfold failing_command_name.
      destruct Hc as [->|Hc]; [cbn; eauto |].
      destruct (truthy command); [| eauto].
      destruct (split command); [contradiction | eauto].
    + rewrite (execute_terminal_command_fault _ _ E Hx). eauto.
Qed.

(** C9. Calling the tool with the empty string is safe: the expression that
    names the failing command yields [''] for it without indexing an empty
    list, so the tool returns its structured result; when the shell is not
    found that result carries the code 127 and the message with the empty
    name. *)
Theorem execute_terminal_command_empty_command_safe (w : World Env) :
  failing_command_name [] = Ok []
  /\ exists v w',
       execute_terminal_command [] w = (Returned v, w')
       /\ forall m e',
            subprocess_run [] (env w) = (Fail (FileNotFoundError m), e') ->
            v = json_dumps
                  (tool_result [] (lit "Error: The shell or command '' was not found.") 127).
Proof.
  split; [reflexivity |].
  destruct (@execute_terminal_command_returns [] w (or_introl eq_refl)) as (v & w' & H).
  exists v, w'. split; [assumption |].
  intros m e' E. rewrite (execute_terminal_command_not_found _ _ E) in H.
  cbn in H. now injection H as <- _.
Qed.

(** C10. The value the tool returns is a JSON text, not an object: it is
    what [json.dumps] writes for a dict of the three keys [stdout],
    [stderr] and [return_code], and it parses to an object with exactly
    these three keys; when [subprocess.run] raised, [stdout] is the empty
    string and [stderr] is not empty, in the text and in what it parses
    to, with the code 127 for [FileNotFoundError] and -1 otherwise. *)
Theorem execute_terminal_command_returns_json_text
    (command : str) (w w' : World Env) (v : str) :
  execute_terminal_command command w = (Returned v, w') ->
  exists out err code,
    v = json_dumps (tool_result out err code)
    /\ json_loads v =
         Some [(lit "stdout", JStr (decoded out)); (lit "stderr", JStr (decoded err));
               (lit "return_code", JInt code)]
    /\ forall x e',
         subprocess_run command (env w) = (Fail x, e') ->
         out = [] /\ decoded out = []
         /\ err <> [] /\ decoded err <> []
         /\ code = (match x with FileNotFoundError _ => 127 | _ => -1 end)%Z.
Proof.
  intros H.
  destruct (subprocess_run command (env w)) as [[result|x] e'] eqn:E.
  - rewrite (execute_terminal_command_completed _ _ E) in H. injection H as <- _.
    eexists _, _, _. split; [reflexivity |]. split; [apply json_loads_dumps |].
    intros ? ? [=].
  - assert (Hx : (exists m, x = FileNotFoundError m) \/ forall m, x <> FileNotFoundError m)
      by (destruct x; ((left; eexists; reflexivity) || (right; discriminate))).
    destruct Hx as [[m ->]|Hx].
    + rewrite (execute_terminal_command_not_found _ _ E) in H.
      destruct (failing_command_name command) as [first|]; [| discriminate].
      cbv zeta in H. injection H as <- _.
      eexists _, _, _. split; [reflexivity |]. split; [apply json_loads_dumps |].
      intros ? ? [= <- _]. repeat split.
      * first [apply lit_app_nonempty | discriminate].
      * rewrite decoded_nil_iff. first [apply lit_app_nonempty | discriminate].
    + rewrite (execute_terminal_command_fault _ _ E Hx) in H.
      cbv zeta in H. injection H as <- _.
      eexists _, _, _. split; [reflexivity |]. split; [apply json_loads_dumps |].
      intros ? ? [= <- _]. repeat split.
      * first [apply lit_app_nonempty | discriminate].
      * rewrite decoded_nil_iff. first [apply lit_app_nonempty | discriminate].
      * destruct x; try reflexivity. exfalso. eapply Hx. reflexivity.
Qed.

(** C5. [get_current_os] takes no argument and does nothing of its own: it
    returns what [platform.system()] returns and lets the exception of
    [platform.system()] through, leaving the world as it was.  So on a
    supported host, where the platform module answers with one of its
    recognised names, none of them empty, the tool returns one of these
    names and never the empty string. *)
Theorem get_current_os_passes_platform_name (w : World Env) :
  get_current_os w =
    (match platform_system (env w) with
     | Ok s => Returned s
     | Fail e => Raised e
     end, w)
  /\ forall (supported : Env -> Prop) (recognized : list str),
       (forall e, supported e -> exists s, platform_system e = Ok s /\ In s recognized) ->
       Forall (fun s => s <> []) recognized ->
       supported (env w) ->
       exists s, get_current_os w = (Returned s, w) /\ In s recognized /\ s <> [].
Proof.
  assert (H0 : get_current_os w =
               (match platform_system (env w) with
                | Ok s => Returned s
                | Fail e => Raised e
                end, w))
    by (unfold get_current_os; destruct (platform_system (env w)); reflexivity).
  split; [assumption |].
  intros supported recognized Hplat Hne Hs.
  destruct (Hplat _ Hs) as (s & E & Hin).
  exists s. rewrite H0, E. repeat split; [assumption |].
  rewrite Forall_forall in Hne. now apply Hne.
Qed.

(** The diagnostic printed when the client cannot be configured. *)
Lemma configure_gemini_failure (w : World Env) (x : exn) (e' : Env) :
  genai_configure (os_getenv (lit "GEMINI_API_KEY") (env w)) (env w) = (Fail x, e') ->
  configure_gemini w =
    (Exited 1,
     mkWorld e'
       (trace w ++
        [Printed ((lit "Error configuring Gemini API: " ++ str_of_exn x ++ newline
                     ++ lit "Please ensure your GEMINI_API_KEY is set in the .env file.")
                    ++ newline)])).
Proof.
  intros H. unfold configure_gemini, try_except, call, bind, and_then, print, emit, sys_exit.
  rewrite H. reflexivity.
Qed.


End ToolClaims.

(** C1, where the code departs from it.  The tool is to return its
    structured result for every command string and never to raise.  On a
    host whose shell is missing, given a command of one space, it raises:
    the handler of [FileNotFoundError] guards the empty command only, a
    blank command has no word, and the [IndexError] of indexing the empty
    list of words leaves the tool. *)
Theorem execute_terminal_command_blank_command_raises :
  execute_terminal_command [32%N] (Scripted.start Scripted.no_shell) =
    (Raised (IndexError (lit "list index out of range")),
     mkWorld Scripted.no_shell [Spawned [32%N]]).
Proof. reflexivity. Qed.

Lemma execute_terminal_command_empty_command_safe_witness :
  exists v w',
    execute_terminal_command [] (Scripted.start Scripted.no_shell) = (Returned v, w')
    /\ v = json_dumps
             (tool_result [] (lit "Error: The shell or command '' was not found.") 127).
Proof.
  destruct (execute_terminal_command_empty_command_safe (Scripted.start Scripted.no_shell))
    as (_ & v & w' & H & Hv).
  exists v, w'. split; [exact H |].
  eapply Hv. reflexivity.
Defined.

Lemma execute_terminal_command_returns_json_text_witness :
  exists v out err,
    fst (execute_terminal_command (lit "ffmpeg -i a.mp4")
           (Scripted.start Scripted.no_shell)) = Returned v
    /\ json_loads v =
         Some [(lit "stdout", JStr out); (lit "stderr", JStr err);
               (lit "return_code", JInt 127)]
    /\ out = [] /\ err <> [].
Proof.
  assert (H : execute_terminal_command (lit "ffmpeg -i a.mp4")
                (Scripted.start Scripted.no_shell) =
              (Returned
                 (json_dumps
                    (tool_result []
                       (lit "Error: The shell or command 'ffmpeg' was not found.") 127)),
               mkWorld Scripted.no_shell
                 [Spawned (lit "ffmpeg -i a.mp4");
                  PrintedErr (lit "Error: The shell or command 'ffmpeg' was not found."
                                ++ newline)]))
    by reflexivity.
  destruct (execute_terminal_command_returns_json_text _ _ H)
    as (out & err & code & Hv & Hl & He).
  destruct (He _ _ eq_refl) as (_ & Ho & _ & Herr & ->).
  eexists _, (decoded out), (decoded err).
  split; [rewrite H; reflexivity |]. split; [exact Hl |]. split; assumption.
Defined.

Lemma get_current_os_passes_platform_name_witness :
  exists s,
    get_current_os (Scripted.start Scripted.quiet) = (Returned s, Scripted.start Scripted.quiet)
    /\ In s [lit "Linux"; lit "Windows"; lit "Darwin"] /\ s <> [].
Proof.
  apply (proj2 (get_current_os_passes_platform_name (Scripted.start Scripted.quiet))
           (fun e => Scripted.host e = Ok (lit "Linux"))).
  - intros e He. exists (lit "Linux"). split; [exact He | left; reflexivity].
  - repeat constructor; discriminate.
  - reflexivity.
Defined.

(** ** Properties of the interactive step runner *)

Section StepFacts.

Context {Env : Type} `{Ext : Externals Env}.

Lemma parse_event_narrates (event : StreamEvent) (w : World Env) :
  parse_event event w = (Returned tt, mkWorld (env w) (trace w ++ narration_of event)).
Proof.
  destruct w as [e t].
  destruct event; cbn [parse_event narration_of];
    unfold print, print_noend, bind, and_then, emit, ret; cbn [env trace];
    rewrite <- ?app_assoc, ?app_nil_r; reflexivity.
Qed.

(** Consuming the events prints their narration and does nothing else. *)
Lemma parse_events_narrates (events : list StreamEvent) (w : World Env) :
  parse_events events w = (Returned tt, mkWorld (env w) (trace w ++ narration events)).
Proof.
  revert w. induction events as [|event rest IH]; intros w.
  - cbn. rewrite app_nil_r. now destruct w.
  - cbn [parse_events]. unfold bind, and_then. rewrite parse_event_narrates, IH.
    cbn [env trace narration flat_map]. now rewrite <- app_assoc.
Qed.

Lemma run_streamed_eq (agent : Agent) (messages : list Item) (w : World Env) :
  run_streamed agent messages w =
    match Runner_run_streamed agent messages (env w) with
    | (Ok result, e1) =>
        (Returned result,
         mkWorld e1 (trace w ++ Invoked agent messages :: narration (stream_events result)))
    | (Fail x, e1) => (Raised x, mkWorld e1 (trace w ++ [Invoked agent messages]))
    end.
Proof.
  unfold run_streamed, bind, and_then, emit, call. cbn [env trace].
  destruct (Runner_run_streamed agent messages (env w)) as [[result|x] e1]; [| reflexivity].
  rewrite parse_events_narrates. cbn [env trace ret].
  now rewrite <- app_assoc.
Qed.

(** One turn of the loop of [process_step]. *)
Lemma process_step_eq (fuel : nat) (agent : Agent) (messages : list Item) (w : World Env) :
  process_step (S fuel) agent messages w =
    match Runner_run_streamed agent messages (env w) with
    | (Fail x, e1) => (Raised x, mkWorld e1 (trace w ++ [Invoked agent messages]))
    | (Ok result, e1) =>
        let heard :=
          trace w ++ Invoked agent messages :: narration (stream_events result) in
        if any_user_input_required (final_output result)
        then
          match read_line e1 with
          | (Ok line, e2) =>
              process_step fuel agent (to_input_list result ++ [user_message line])
                (mkWorld e2 ((heard ++ [question_shown result]) ++ [answer_read (Ok line)]))
          | (Fail x, e2) =>
              (Raised x,
               mkWorld e2 ((heard ++ [question_shown result]) ++ [answer_read (Fail x)]))
          end
        else (Returned result, mkWorld e1 (heard ++ [Printed (newline ++ newline)]))
    end.
Proof.
  cbn [process_step]. unfold bind at 1. unfold and_then at 1. rewrite run_streamed_eq.
  destruct (Runner_run_streamed agent messages (env w)) as [[result|x] e1]; [| reflexivity].
  cbv zeta.
  destruct (any_user_input_required (final_output result)); [| reflexivity].
  unfold bind, and_then, print, emit, input. cbn [env trace].
  destruct (read_line e1) as [[line|x] e2]; reflexivity.
Qed.

(** The state after [n] rounds, one round at a time. *)
Lemma after_rounds_eq (n : nat) (agent : Agent) (messages : list Item) (w : World Env) :
  after_rounds (S n) agent messages w =
    match Runner_run_streamed agent messages (env w) with
    | (Ok result, e1) =>
        if any_user_input_required (final_output result)
        then
          match read_line e1 with
          | (Ok line, e2) =>
              after_rounds n agent (to_input_list result ++ [user_message line])
                (mkWorld e2
                   (((trace w ++ Invoked agent messages :: narration (stream_events result))
                       ++ [question_shown result]) ++ [answer_read (Ok line)]))
          | (Fail _, _) => None
          end
        else None
    | (Fail _, _) => None
    end.
Proof.
  cbn [after_rounds]. rewrite run_streamed_eq.
  destruct (Runner_run_streamed agent messages (env w)) as [[result|x] e1]; [| reflexivity].
  destruct (any_user_input_required (final_output result)); [| reflexivity].
  unfold bind, and_then, print, emit, input. cbn [env trace].
  destruct (read_line e1) as [[line|x] e2]; reflexivity.
Qed.

Lemma agents_invoked_narration (events : list StreamEvent) :
  agents_invoked (narration events) = [].
Proof.
  induction events as [|ev l IH]; [reflexivity |].
  unfold narration in *. cbn [flat_map]. rewrite agents_invoked_app, IH.
  destruct ev; reflexivity.
Qed.

(** A call of [process_step] only adds to the trace; what it adds shows no
    agent but its own, and begins, when the loop is entered, with the
    invocation of its agent on the transcript it was given. *)
Lemma process_step_trace (fuel : nat) :
  forall (agent : Agent) (messages : list Item) (w : World Env),
  exists t,
    trace (snd (process_step fuel agent messages w)) = trace w ++ t
    /\ Forall (fun a => a = agent) (agents_invoked t)
    /\ (fuel <> O -> exists t', t = Invoked agent messages :: t').
Proof.
  induction fuel as [|fuel IH]; intros agent messages w.
  - exists []. cbn. rewrite app_nil_r. repeat split; [constructor | contradiction].
  - rewrite process_step_eq.
    destruct (Runner_run_streamed agent messages (env w)) as [[result|x] e1].
    2:{ cbn [snd trace]. eexists. split; [reflexivity |].
        split; [repeat constructor | intros _; eexists; reflexivity]. }
    cbv zeta. destruct (any_user_input_required (final_output result)).
    2:{ cbn [snd trace]. eexists. rewrite <- !app_assoc. cbn [app].
        split; [reflexivity |]. split; [| intros _; eexists; reflexivity].
        cbn [agents_invoked]. rewrite agents_invoked_app, agents_invoked_narration.
        repeat constructor. }
    destruct (read_line e1) as [[line|x] e2].
    2:{ cbn [snd trace]. eexists. rewrite <- !app_assoc. cbn [app].
        split; [reflexivity |]. split; [| intros _; eexists; reflexivity].
        cbn [agents_invoked]. rewrite agents_invoked_app, agents_invoked_narration.
        repeat constructor. }
    match goal with
    | |- context [process_step fuel agent ?m ?w'] =>
        destruct (IH agent m w') as (t & Ht & Hall & _)
    end.
    rewrite Ht. cbn [trace].
    eexists. rewrite <- !app_assoc. cbn [app]. split; [reflexivity |].
    split; [| intros _; eexists; reflexivity].
    cbn [agents_invoked]. rewrite agents_invoked_app, agents_invoked_narration.
    constructor; [reflexivity | exact Hall].
Qed.

(** Only an answer that asks for nothing leaves the loop by [return]. *)
Lemma process_step_returns_settled (fuel : nat) :
  forall (agent : Agent) (messages : list Item) (w w' : World Env) (result : RunResult),
    process_step fuel agent messages w = (Returned result, w') ->
    any_user_input_required (final_output result) = false.
Proof.
  induction fuel as [|fuel IH]; intros agent messages w w' result H; [discriminate |].
  rewrite process_step_eq in H.
  destruct (Runner_run_streamed agent messages (env w)) as [[r|x] e1]; [| discriminate].
  cbv zeta in H. destruct (any_user_input_required (final_output r)) eqn:Hflag.
  - destruct (read_line e1) as [[line|x] e2]; [| discriminate]. eapply IH, H.
  - now injection H as <- _.
Qed.

(** After [n] rounds of clarification, the loop goes on as it would from
    the state these rounds led to. *)
Lemma process_step_after_rounds (n : nat) :
  forall (fuel : nat) (agent : Agent) (messages messages' : list Item) (w w' : World Env),
    after_rounds n agent messages w = Some (messages', w') ->
    process_step (n + fuel) agent messages w = process_step fuel agent messages' w'.
Proof.
  induction n as [|n IH]; intros fuel agent messages messages' w w' H.
  - now injection H as <- <-.
  - rewrite after_rounds_eq in H. cbn [Nat.add]. rewrite process_step_eq.
    destruct (Runner_run_streamed agent messages (env w)) as [[r|x] e1]; [| discriminate].
    cbv zeta. destruct (any_user_input_required (final_output r)); [| discriminate].
    destruct (read_line e1) as [[line|x] e2]; [| discriminate].
    now apply IH.
Qed.

(** While the rounds of clarification go on, the fuel runs out first. *)
Lemma process_step_unfinished (n : nat) :
  forall (fuel : nat) (agent : Agent) (messages messages' : list Item) (w w' : World Env),
    after_rounds n agent messages w = Some (messages', w') ->
    fuel <= n ->
    fst (process_step fuel agent messages w) = Unfinished.
Proof.
  induction n as [|n IH]; intros fuel agent messages messages' w w' H Hle.
  - replace fuel with O by lia. reflexivity.
  - destruct fuel as [|fuel]; [reflexivity |].
    rewrite after_rounds_eq in H. rewrite process_step_eq.
    destruct (Runner_run_streamed agent messages (env w)) as [[r|x] e1]; [| discriminate].
    cbv zeta. destruct (any_user_input_required (final_output r)); [| discriminate].
    destruct (read_line e1) as [[line|x] e2]; [| discriminate].
    eapply IH; [exact H | lia].
Qed.

(** A returned result is the answer of the invocation that followed some
    number of rounds of clarification. *)
Lemma process_step_returned_after (fuel : nat) :
  forall (agent : Agent) (messages : list Item) (w w' : World Env) (result : RunResult),
    process_step fuel agent messages w = (Returned result, w') ->
    exists n messages' w1 e1,
      n < fuel
      /\ after_rounds n agent messages w = Some (messages', w1)
      /\ Runner_run_streamed agent messages' (env w1) = (Ok result, e1)
      /\ any_user_input_required (final_output result) = false.
Proof.
  induction fuel as [|fuel IH]; intros agent messages w w' result H; [discriminate |].
  rewrite process_step_eq in H.
  destruct (Runner_run_streamed agent messages (env w)) as [[r|x] e1] eqn:E;
    [| discriminate].
  cbv zeta in H. destruct (any_user_input_required (final_output r)) eqn:Hflag.
  - destruct (read_line e1) as [[line|x] e2] eqn:El; [| discriminate].
    destruct (IH _ _ _ _ _ H) as (n & m' & w1 & e1' & Hn & Ha & Hr & Hf).
    exists (S n), m', w1, e1'. split; [lia |]. split; [| now split].
    rewrite after_rounds_eq, E, Hflag, El. exact Ha.
  - injection H as <- _. exists O, messages, w, e1. repeat split; (lia || assumption).
Qed.

(** Fuel is only a bound: once a call has ended with some fuel, it ends
    the same way with any more. *)
Lemma process_step_more_fuel (fuel : nat) :
  forall (fuel' : nat) (agent : Agent) (messages : list Item) (w : World Env),
    fuel <= fuel' ->
    fst (process_step fuel agent messages w) <> Unfinished ->
    process_step fuel' agent messages w = process_step fuel agent messages w.
Proof.
  induction fuel as [|fuel IH]; intros fuel' agent messages w Hle Hend;
    [now elim Hend |].
  destruct fuel' as [|fuel']; [lia |].
  rewrite process_step_eq in Hend. rewrite !process_step_eq.
  destruct (Runner_run_streamed agent messages (env w)) as [[r|x] e1]; [| reflexivity].
  cbv zeta in *. destruct (any_user_input_required (final_output r)); [| reflexivity].
  destruct (read_line e1) as [[line|x] e2]; [| reflexivity].
  apply IH; [lia | exact Hend].
Qed.

(** C3. When the answer of an invocation has [any_user_input_required]
    set, the runner prints [question_to_user] after the name of the agent
    that answered, reads one line, appends that line as one message of role
    [user] to the transcript of the answer, and goes round its loop again
    with the same agent: the next invocation is of that agent on that
    transcript, and no other agent is invoked in this call.  When the flag
    is not set, it returns the answer, whose transcript is
    [to_input_list]. *)
Theorem process_step_clarification_round
    (fuel : nat) (agent : Agent) (messages : list Item) (w : World Env)
    (result : RunResult) (e1 : Env) :
  Runner_run_streamed agent messages (env w) = (Ok result, e1) ->
  let heard := trace w ++ Invoked agent messages :: narration (stream_events result) in
  (any_user_input_required (final_output result) = true ->
   forall (line : str) (e2 : Env),
     read_line e1 = (Ok line, e2) ->
     let transcript := to_input_list result ++ [user_message line] in
     let asked := heard ++ [question_shown result; answer_read (Ok line)] in
     question_shown result =
       Printed ((newline ++ name (last_agent result) ++ lit " >> "
                   ++ format_optional (question_to_user (final_output result))) ++ newline)
     /\ List.length transcript = S (List.length (to_input_list result))
     /\ process_step (S fuel) agent messages w =
          process_step fuel agent transcript (mkWorld e2 asked)
     /\ exists t,
          trace (snd (process_step (S (S fuel)) agent messages w)) =
            asked ++ Invoked agent transcript :: t
          /\ Forall (fun a => a = agent) (agents_invoked t))
  /\ (any_user_input_required (final_output result) = false ->
      process_step (S fuel) agent messages w =
        (Returned result, mkWorld e1 (heard ++ [Printed (newline ++ newline)]))).
Proof.
  intros E heard. split.
  - intros Hflag line e2 El transcript asked.
    assert (Hstep : forall f, process_step (S f) agent messages w =
                              process_step f agent transcript (mkWorld e2 asked)).
    { intros f. rewrite process_step_eq, E. cbv zeta. rewrite Hflag, El.
      unfold asked, heard. now rewrite <- (app_assoc _ [_] [_]). }
    split; [reflexivity |]. split; [unfold transcript; rewrite length_app; cbn; lia |].
    split; [apply Hstep |].
    rewrite Hstep.
    destruct (process_step_trace (S fuel) agent transcript (mkWorld e2 asked))
      as (t & Ht & Hall & Hhead).
    destruct (Hhead ltac:(discriminate)) as (t' & ->).
    exists t'. split; [exact Ht |]. now inversion Hall.
  - intros Hflag. rewrite process_step_eq, E. cbv zeta. now rewrite Hflag.
Qed.

(** C6. Each of the four containers declares exactly one
    [any_user_input_required], a [bool] with no default, so required, and
    exactly one [question_to_user], an [Optional[str]]; and [process_step]
    never returns a result whose output still has
    [any_user_input_required] set. *)
Theorem containers_carry_one_clarification_request :
  (forall s : schema,
     fields_named "any_user_input_required" s = [(TBool, Nothing)]
     /\ fields_named "question_to_user" s = [(TOptional TStr, Field ASK)])
  /\ (forall (fuel : nat) (agent : Agent) (messages : list Item) (w w' : World Env)
        (result : RunResult),
        process_step fuel agent messages w = (Returned result, w') ->
        any_user_input_required (final_output result) = false).
Proof.
  split.
  - intros s. destruct s; split; reflexivity.
  - intros fuel. apply process_step_returns_settled.
Qed.

(** An agent that asks on every invocation, with a user who answers every
    time, keeps the loop going whatever the fuel. *)
Lemma process_step_never_settles (agent : Agent) :
  (forall messages e, exists result e',
      Runner_run_streamed agent messages e = (Ok result, e')
      /\ any_user_input_required (final_output result) = true) ->
  (forall e, exists line e', read_line e = (Ok line, e')) ->
  forall (fuel : nat) (messages : list Item) (w : World Env),
    fst (process_step fuel agent messages w) = Unfinished.
Proof.
  intros Hask Hline. induction fuel as [|fuel IH]; intros messages w; [reflexivity |].
  rewrite process_step_eq.
  destruct (Hask messages (env w)) as (result & e1 & -> & Hflag).
  cbv zeta. rewrite Hflag.
  destruct (Hline e1) as (line & e2 & ->). apply IH.
Qed.

(** The loop returns the first answer that asks for nothing, however many
    rounds came before it, as soon as the fuel covers these rounds. *)
Lemma process_step_settles_after (n : nat) (agent : Agent) (messages messages' : list Item)
    (w w' : World Env) (result : RunResult) (e1 : Env) :
  after_rounds n agent messages w = Some (messages', w') ->
  Runner_run_streamed agent messages' (env w') = (Ok result, e1) ->
  any_user_input_required (final_output result) = false ->
  forall fuel : nat,
    fst (process_step fuel agent messages w) =
      if Nat.ltb n fuel then Returned result else Unfinished.
Proof.
  intros Ha Hr Hflag fuel. destruct (Nat.ltb_spec n fuel) as [Hlt|Hge].
  - replace fuel with (n + S (fuel - S n))%nat by lia.
    rewrite (process_step_after_rounds _ _ _ _ _ Ha), process_step_eq, Hr.
    cbv zeta. now rewrite Hflag.
  - eapply process_step_unfinished; eassumption.
Qed.

End StepFacts.

(** For every number of rounds there is a session that takes exactly that
    many: the agent asks [n] times and then completes its stage. *)
Lemma hesitant_rounds (n : nat) :
  forall (agent : Agent) (messages : list Item) (t : list IOEvent),
  exists messages' w',
    after_rounds n agent messages (mkWorld (Scripted.hesitant n) t) = Some (messages', w')
    /\ Runner_run_streamed agent messages' (env w') =
         (Scripted.completes true agent messages', Scripted.session [] []).
Proof.
  induction n as [|n IH]; intros agent messages t.
  - exists messages, (mkWorld (Scripted.hesitant 0) t). split; reflexivity.
  - rewrite after_rounds_eq.
    change (Runner_run_streamed agent messages (env (mkWorld (Scripted.hesitant (S n)) t)))
      with (Scripted.asks (lit "which file?") agent messages,
            Scripted.session (repeat (Scripted.asks (lit "which file?")) n
                                ++ [Scripted.completes true])
                             (repeat (lit "a.mp4") (S n))).
    unfold Scripted.asks at 1. cbv beta iota.
    replace (any_user_input_required
               (final_output
                  (Scripted.said false true (Some (lit "which file?")) (lit "which file?")
                     agent messages)))
      with true by (cbn; destruct (output_type agent); reflexivity).
    change (read_line (Scripted.session
                         (repeat (Scripted.asks (lit "which file?")) n
                            ++ [Scripted.completes true])
                         (repeat (lit "a.mp4") (S n))))
      with (@Ok str (lit "a.mp4"), Scripted.hesitant n).
    cbv beta iota. apply IH.
Qed.

(** C8. The loop of [process_step] has no bound on its rounds.  If the
    agent asks on every invocation (and the user answers every time) the
    loop is never left, whatever the fuel.  It returns exactly when an
    invocation answers without asking: if that happens after [n] rounds,
    the call returns that answer as soon as the fuel exceeds [n] and not
    before; and a result it returns is the answer, not asking, of the
    invocation that followed some number of rounds.  For every [n] a
    session exists that takes exactly [n] rounds. *)
Theorem process_step_clarification_unbounded :
  (forall (Env : Type) (Ext : Externals Env) (agent : Agent),
     (forall messages e, exists result e',
         Runner_run_streamed agent messages e = (Ok result, e')
         /\ any_user_input_required (final_output result) = true) ->
     (forall e, exists line e', read_line e = (Ok line, e')) ->
     forall (fuel : nat) (messages : list Item) (w : World Env),
       fst (process_step fuel agent messages w) = Unfinished)
  /\ (forall (Env : Type) (Ext : Externals Env) (n : nat) (agent : Agent)
        (messages messages' : list Item) (w w' : World Env) (result : RunResult) (e1 : Env),
        after_rounds n agent messages w = Some (messages', w') ->
        Runner_run_streamed agent messages' (env w') = (Ok result, e1) ->
        any_user_input_required (final_output result) = false ->
        forall fuel : nat,
          fst (process_step fuel agent messages w) =
            if Nat.ltb n fuel then Returned result else Unfinished)
  /\ (forall (Env : Type) (Ext : Externals Env) (fuel : nat) (agent : Agent)
        (messages : list Item) (w w' : World Env) (result : RunResult),
        process_step fuel agent messages w = (Returned result, w') ->
        exists n messages' w1 e1,
          n < fuel
          /\ after_rounds n agent messages w = Some (messages', w1)
          /\ Runner_run_streamed agent messages' (env w1) = (Ok result, e1)
          /\ any_user_input_required (final_output result) = false)
  /\ (forall (n : nat) (agent : Agent) (messages : list Item),
        exists (w : World Scripted.env_t) (result : RunResult),
          fst (process_step n agent messages w) = Unfinished
          /\ fst (process_step (S n) agent messages w) = Returned result).
Proof.
  split; [intros Env Ext agent; apply process_step_never_settles |].
  split; [intros Env Ext n agent messages messages' w w' result e1;
          apply process_step_settles_after |].
  split; [intros Env Ext fuel; apply process_step_returned_after |].
  intros n agent messages.
  destruct (hesitant_rounds n agent messages []) as (m' & w' & Ha & Hr).
  exists (mkWorld (Scripted.hesitant n) []), (Scripted.said true false None (lit "done") agent m').
  assert (Hflag : any_user_input_required
                    (final_output (Scripted.said true false None (lit "done") agent m')) = false)
    by (cbn; destruct (output_type agent); reflexivity).
  assert (H : forall fuel,
             fst (process_step fuel agent messages (mkWorld (Scripted.hesitant n) [])) =
               if Nat.ltb n fuel
               then Returned (Scripted.said true false None (lit "done") agent m')
               else Unfinished)
    by (eapply process_step_settles_after; eassumption).
  split.
  - rewrite (H n). now rewrite Nat.ltb_irrefl.
  - rewrite (H (S n)). now rewrite (proj2 (Nat.ltb_lt n (S n)) (Nat.lt_succ_diag_r n)).
Qed.
(** ** Properties of the pipeline orchestrator *)

Lemma str_eqb_refl (s : str) : str_eqb s s = true.
Proof. induction s as [|c s IH]; [reflexivity |]. cbn. now rewrite N.eqb_refl. Qed.

Lemma same_agent_refl (a : Agent) : same_agent a a = true.
Proof. apply str_eqb_refl. Qed.

Lemma collapse_eq (a b : Agent) (l : list Agent) :
  collapse (a :: b :: l) =
    if same_agent a b then collapse (b :: l) else a :: collapse (b :: l).
Proof. reflexivity. Qed.

(** Further invocations of the agent of a stage belong to that stage. *)
Lemma collapse_same (a : Agent) (l rest : list Agent) :
  Forall (fun x => x = a) l -> collapse (a :: l ++ rest) = collapse (a :: rest).
Proof.
  induction 1 as [|x l -> _ IH]; [reflexivity |].
  cbn [app]. now rewrite collapse_eq, same_agent_refl.
Qed.

(** The stages shown by the invocations of a run that goes through the
    agents of the pipeline in order, each any number of times, no agent
    being invoked unless the one before it was. *)
Lemma stages_of_run (A1 A2 A3 A4 : list Agent) :
  Forall (fun a => a = analyzer_agent) A1 ->
  Forall (fun a => a = planner_agent) A2 ->
  Forall (fun a => a = executor_agent) A3 ->
  Forall (fun a => a = qc_agent) A4 ->
  (A2 <> [] -> A1 <> []) ->
  (A3 <> [] -> A2 <> []) ->
  (A4 <> [] -> A3 <> []) ->
  (exists rest, pipeline = collapse (A1 ++ A2 ++ A3 ++ A4) ++ rest)
  /\ (A4 <> [] -> collapse (A1 ++ A2 ++ A3 ++ A4) = pipeline).
Proof.
  intros H1 H2 H3 H4 H21 H32 H43.
  destruct A4 as [|a4 A4'].
  2:{ inversion H4 as [|? ? -> H4']; subst.
      destruct A3 as [|a3 A3']; [exfalso; now apply H43 |].
      inversion H3 as [|? ? -> H3']; subst.
      destruct A2 as [|a2 A2']; [exfalso; now apply H32 |].
      inversion H2 as [|? ? -> H2']; subst.
      destruct A1 as [|a1 A1']; [exfalso; now apply H21 |].
      inversion H1 as [|? ? -> H1']; subst.
      assert (E : collapse ((analyzer_agent :: A1') ++ (planner_agent :: A2')
                              ++ (executor_agent :: A3') ++ qc_agent :: A4') = pipeline).
      { cbn [app]. rewrite (collapse_same _ H1'), collapse_eq.
        change (same_agent analyzer_agent planner_agent) with false. cbv iota.
        rewrite (collapse_same _ H2'), collapse_eq.
        change (same_agent planner_agent executor_agent) with false. cbv iota.
        rewrite (collapse_same _ H3'), collapse_eq.
        change (same_agent executor_agent qc_agent) with false. cbv iota.
        rewrite <- (app_nil_r A4'), (collapse_same _ H4'). reflexivity. }
      rewrite E. split; [exists []; now rewrite app_nil_r | reflexivity]. }
  split; [| contradiction].
  rewrite app_nil_r.
  destruct A3 as [|a3 A3'].
  2:{ inversion H3 as [|? ? -> H3']; subst.
      destruct A2 as [|a2 A2']; [exfalso; now apply H32 |].
      inversion H2 as [|? ? -> H2']; subst.
      destruct A1 as [|a1 A1']; [exfalso; now apply H21 |].
      inversion H1 as [|? ? -> H1']; subst.
      exists [qc_agent]. cbn [app].
      rewrite (collapse_same _ H1'), collapse_eq.
      change (same_agent analyzer_agent planner_agent) with false. cbv iota.
      rewrite (collapse_same _ H2'), collapse_eq.
      change (same_agent planner_agent executor_agent) with false. cbv iota.
      rewrite <- (app_nil_r A3'), (collapse_same _ H3'). reflexivity. }
  rewrite app_nil_r.
  destruct A2 as [|a2 A2'].
  2:{ inversion H2 as [|? ? -> H2']; subst.
      destruct A1 as [|a1 A1']; [exfalso; now apply H21 |].
      inversion H1 as [|? ? -> H1']; subst.
      exists [executor_agent; qc_agent]. cbn [app].
      rewrite (collapse_same _ H1'), collapse_eq.
      change (same_agent analyzer_agent planner_agent) with false. cbv iota.
      rewrite <- (app_nil_r A2'), (collapse_same _ H2'). reflexivity. }
  rewrite app_nil_r.
  destruct A1 as [|a1 A1']; [exists pipeline; reflexivity |].
  inversion H1 as [|? ? -> H1']; subst.
  exists [planner_agent; executor_agent; qc_agent].
  rewrite <- (app_nil_r A1'), (collapse_same _ H1'). reflexivity.
Qed.

(** The parts of the description of a run close one by one. *)
Ltac close_part :=
  cbn [fst snd];
  first [ assumption | reflexivity | (intros _; assumption) | discriminate
        | (let H := fresh in intros H; now elim H) | constructor ].

Section MainFacts.

Context {Env : Type} `{Ext : Externals Env}.

(** [main] stage by stage. *)
Lemma main_eq (fuel : nat) (w : World Env) :
  main fuel w =
    and_then (process_step fuel analyzer_agent [user_message ANALYZER_PROMPT]
                (announced w [lit "----- STARTING ANALYSIS -----"]))
      (fun result_1 w1 =>
    and_then (process_step fuel planner_agent
                (to_input_list result_1 ++ [user_message PLANNER_PROMPT])
                (announced w1 [model_dump_json (final_output result_1);
                               lit "----- STARTING PLANNING -----"]))
      (fun result_2 w2 =>
    and_then (process_step fuel executor_agent
                (to_input_list result_2 ++ [user_message EXECUTOR_PROMPT])
                (announced w2 [model_dump_json (final_output result_2);
                               lit "----- STARTING EXECUTION -----"]))
      (fun result_3 w3 =>
    and_then (process_step fuel qc_agent
                (to_input_list result_3 ++ [user_message QC_PROMPT])
                (announced w3 [model_dump_json (final_output result_3);
                               lit "----- STARTING QUALITY CHECK -----"]))
      (fun result_4 w4 =>
         (Returned tt,
          announced w4 [model_dump_json (final_output result_4);
                        lit "----- WORKFLOW COMPLETE -----"]))))).
Proof.
  unfold main, announced.
  unfold bind at 1, print at 1, emit at 1. cbn [and_then env trace map].
  unfold bind at 1.
  destruct (process_step fuel analyzer_agent _ _) as [[r1| | |] w1]; try reflexivity.
  cbn [and_then]. unfold bind at 1, print at 1, emit at 1. cbn [and_then env trace map].
  unfold bind at 1, print at 1, emit at 1. cbn [and_then env trace map].
  unfold bind at 1. rewrite <- app_assoc. cbn [app].
  destruct (process_step fuel planner_agent _ _) as [[r2| | |] w2]; try reflexivity.
  cbn [and_then]. unfold bind at 1, print at 1, emit at 1. cbn [and_then env trace map].
  unfold bind at 1, print at 1, emit at 1. cbn [and_then env trace map].
  unfold bind at 1. rewrite <- app_assoc. cbn [app].
  destruct (process_step fuel executor_agent _ _) as [[r3| | |] w3]; try reflexivity.
  cbn [and_then]. unfold bind at 1, print at 1, emit at 1. cbn [and_then env trace map].
  unfold bind at 1, print at 1, emit at 1. cbn [and_then env trace map].
  unfold bind at 1. rewrite <- app_assoc. cbn [app].
  destruct (process_step fuel qc_agent _ _) as [[r4| | |] w4]; try reflexivity.
  cbn [and_then]. unfold bind at 1, print at 1, emit at 1. cbn [and_then env trace map].
  unfold print, emit. cbn [env trace]. rewrite <- app_assoc. reflexivity.
Qed.

Lemma agents_invoked_printed (texts : list str) :
  agents_invoked (map (fun text => Printed (text ++ newline)) texts) = [].
Proof. induction texts; [reflexivity | assumption]. Qed.

(** What a stage adds to the trace, its banner included. *)
Lemma stage_trace (fuel : nat) (agent : Agent) (messages : list Item) (w : World Env)
    (texts : list str) :
  exists t,
    trace (snd (process_step fuel agent messages (announced w texts))) = trace w ++ t
    /\ Forall (fun a => a = agent) (agents_invoked t)
    /\ (fuel <> O -> agents_invoked t <> []).
Proof.
  destruct (process_step_trace fuel agent messages (announced w texts))
    as (t & Ht & Hall & Hhead).
  eexists. cbn [announced trace] in Ht. rewrite <- app_assoc in Ht.
  split; [exact Ht |].
  rewrite agents_invoked_app, agents_invoked_printed. cbn [app].
  split; [exact Hall |].
  intros Hf. destruct (Hhead Hf) as (t' & ->). discriminate.
Qed.

(** The invocations of a run of [main]: those of the four agents in the
    order of the pipeline, none of an agent unless the agent before it was
    invoked, and all four when the run returns. *)
Lemma main_invocations (fuel : nat) (w : World Env) :
  exists T A1 A2 A3 A4,
    trace (snd (main fuel w)) = trace w ++ T
    /\ agents_invoked T = A1 ++ A2 ++ A3 ++ A4
    /\ Forall (fun a => a = analyzer_agent) A1
    /\ Forall (fun a => a = planner_agent) A2
    /\ Forall (fun a => a = executor_agent) A3
    /\ Forall (fun a => a = qc_agent) A4
    /\ (A2 <> [] -> A1 <> [])
    /\ (A3 <> [] -> A2 <> [])
    /\ (A4 <> [] -> A3 <> [])
    /\ (fst (main fuel w) = Returned tt -> A4 <> []).
Proof.
  rewrite main_eq.
  destruct fuel as [|fuel].
  { cbn [process_step and_then snd fst announced trace].
    eexists _, [], [], [], []. split; [reflexivity |].
    repeat split; close_part. }
  set (f := S fuel). assert (Hf : f <> O) by discriminate. clearbody f.
  destruct (stage_trace f analyzer_agent [user_message ANALYZER_PROMPT] w
              [lit "----- STARTING ANALYSIS -----"]) as (t1 & Ht1 & Ha1 & Hn1).
  specialize (Hn1 Hf).
  destruct (process_step f analyzer_agent _ _) as [o1 w1]. cbn [snd] in Ht1.
  destruct o1 as [r1| | |]; cbn [and_then];
    [ | exists t1, (agents_invoked t1), [], [], []; rewrite !app_nil_r;
         repeat split; close_part .. ].
  destruct (stage_trace f planner_agent
              (to_input_list r1 ++ [user_message PLANNER_PROMPT]) w1
              [model_dump_json (final_output r1); lit "----- STARTING PLANNING -----"])
    as (t2 & Ht2 & Ha2 & Hn2).
  specialize (Hn2 Hf). rewrite Ht1, <- app_assoc in Ht2.
  destruct (process_step f planner_agent _ _) as [o2 w2]. cbn [snd] in Ht2.
  destruct o2 as [r2| | |]; cbn [and_then];
    [ | exists (t1 ++ t2), (agents_invoked t1), (agents_invoked t2), [], [];
         rewrite agents_invoked_app, !app_nil_r;
         repeat split; close_part .. ].
  destruct (stage_trace f executor_agent
              (to_input_list r2 ++ [user_message EXECUTOR_PROMPT]) w2
              [model_dump_json (final_output r2); lit "----- STARTING EXECUTION -----"])
    as (t3 & Ht3 & Ha3 & Hn3).
  specialize (Hn3 Hf). rewrite Ht2, <- !app_assoc in Ht3.
  destruct (process_step f executor_agent _ _) as [o3 w3]. cbn [snd] in Ht3.
  destruct o3 as [r3| | |]; cbn [and_then];
    [ | exists (t1 ++ t2 ++ t3), (agents_invoked t1), (agents_invoked t2),
           (agents_invoked t3), [];
         rewrite !agents_invoked_app, !app_nil_r;
         repeat split; close_part .. ].
  destruct (stage_trace f qc_agent
              (to_input_list r3 ++ [user_message QC_PROMPT]) w3
              [model_dump_json (final_output r3); lit "----- STARTING QUALITY CHECK -----"])
    as (t4 & Ht4 & Ha4 & Hn4).
  specialize (Hn4 Hf). rewrite Ht3, <- !app_assoc in Ht4.
  destruct (process_step f qc_agent _ _) as [o4 w4]. cbn [snd] in Ht4.
  destruct o4 as [r4| | |]; cbn [and_then];
    [ | exists (t1 ++ t2 ++ t3 ++ t4), (agents_invoked t1), (agents_invoked t2),
           (agents_invoked t3), (agents_invoked t4);
         rewrite !agents_invoked_app;
         repeat split; close_part .. ].
  exists (t1 ++ t2 ++ t3 ++ t4
            ++ map (fun text => Printed (text ++ newline))
                 [model_dump_json (final_output r4); lit "----- WORKFLOW COMPLETE -----"]),
    (agents_invoked t1), (agents_invoked t2), (agents_invoked t3), (agents_invoked t4).
  cbn [snd fst announced trace]. rewrite Ht4, <- !app_assoc.
  rewrite !agents_invoked_app, agents_invoked_printed, app_nil_r.
  repeat split; close_part.
Qed.

(** A run of [main] that returns went through the four stages, each
    returning. *)
Lemma main_returned_stages (fuel : nat) (w w' : World Env) :
  main fuel w = (Returned tt, w') ->
  exists r1 w1 r2 w2 r3 w3 r4 w4,
    process_step fuel analyzer_agent [user_message ANALYZER_PROMPT]
      (announced w [lit "----- STARTING ANALYSIS -----"]) = (Returned r1, w1)
    /\ process_step fuel planner_agent (to_input_list r1 ++ [user_message PLANNER_PROMPT])
         (announced w1 [model_dump_json (final_output r1);
                        lit "----- STARTING PLANNING -----"]) = (Returned r2, w2)
    /\ process_step fuel executor_agent (to_input_list r2 ++ [user_message EXECUTOR_PROMPT])
         (announced w2 [model_dump_json (final_output r2);
                        lit "----- STARTING EXECUTION -----"]) = (Returned r3, w3)
    /\ process_step fuel qc_agent (to_input_list r3 ++ [user_message QC_PROMPT])
         (announced w3 [model_dump_json (final_output r3);
                        lit "----- STARTING QUALITY CHECK -----"]) = (Returned r4, w4)
    /\ w' = announced w4 [model_dump_json (final_output r4);
                          lit "----- WORKFLOW COMPLETE -----"].
Proof.
  rewrite main_eq. intros H.
  destruct (process_step fuel analyzer_agent _ _) as [[r1| | |] w1] eqn:E1;
    try discriminate.
  cbn [and_then] in H.
  destruct (process_step fuel planner_agent _ _) as [[r2| | |] w2] eqn:E2;
    try discriminate.
  cbn [and_then] in H.
  destruct (process_step fuel executor_agent _ _) as [[r3| | |] w3] eqn:E3;
    try discriminate.
  cbn [and_then] in H.
  destruct (process_step fuel qc_agent _ _) as [[r4| | |] w4] eqn:E4; try discriminate.
  cbn [and_then] in H. injection H as <-.
  exists r1, w1, r2, w2, r3, w3, r4, w4.
  split; [reflexivity |]. split; [exact E2 |]. split; [exact E3 |].
  split; [exact E4 | reflexivity].
Qed.

(** So it is for [main]: a run that ends with some fuel is the same run
    with any more. *)
Lemma main_more_fuel (fuel fuel' : nat) (w : World Env) :
  fuel <= fuel' ->
  fst (main fuel w) <> Unfinished ->
  main fuel' w = main fuel w.
Proof.
  intros Hle. rewrite !main_eq.
  set (w0 := announced w _).
  intros Hend.
  assert (H1 : fst (process_step fuel analyzer_agent [user_message ANALYZER_PROMPT] w0)
               <> Unfinished)
    by (intros E; apply Hend;
        destruct (process_step fuel analyzer_agent _ w0) as [o ?];
        cbn [fst] in E; subst o; reflexivity).
  rewrite (process_step_more_fuel _ _ _ Hle H1).
  destruct (process_step fuel analyzer_agent _ w0) as [[r1| | |] w1]; try reflexivity.
  cbn [and_then] in *. set (w1' := announced w1 _) in *.
  assert (H2 : fst (process_step fuel planner_agent
                      (to_input_list r1 ++ [user_message PLANNER_PROMPT]) w1')
               <> Unfinished)
    by (intros E; apply Hend;
        destruct (process_step fuel planner_agent _ w1') as [o ?];
        cbn [fst] in E; subst o; reflexivity).
  rewrite (process_step_more_fuel _ _ _ Hle H2).
  destruct (process_step fuel planner_agent _ w1') as [[r2| | |] w2]; try reflexivity.
  cbn [and_then] in *. set (w2' := announced w2 _) in *.
  assert (H3 : fst (process_step fuel executor_agent
                      (to_input_list r2 ++ [user_message EXECUTOR_PROMPT]) w2')
               <> Unfinished)
    by (intros E; apply Hend;
        destruct (process_step fuel executor_agent _ w2') as [o ?];
        cbn [fst] in E; subst o; reflexivity).
  rewrite (process_step_more_fuel _ _ _ Hle H3).
  destruct (process_step fuel executor_agent _ w2') as [[r3| | |] w3]; try reflexivity.
  cbn [and_then] in *. set (w3' := announced w3 _) in *.
  assert (H4 : fst (process_step fuel qc_agent
                      (to_input_list r3 ++ [user_message QC_PROMPT]) w3')
               <> Unfinished)
    by (intros E; apply Hend;
        destruct (process_step fuel qc_agent _ w3') as [o ?];
        cbn [fst] in E; subst o; reflexivity).
  rewrite (process_step_more_fuel _ _ _ Hle H4).
  reflexivity.
Qed.

(** C2. A run of [main] invokes the agents in the order of the pipeline:
    the stages its trace shows are an initial part of Analysis, Planning,
    Execution, QC, each at most once, in every run; and in a run that
    returns they are exactly these four, each once.  The first stage is
    given the single [user] message that holds the Analysis prompt, and
    each later stage the transcript of the result the stage before it
    returned with one [user] message, the prompt of the stage, appended. *)
Theorem main_runs_stages_in_order (fuel : nat) (w : World Env) :
  exists T,
    trace (snd (main fuel w)) = trace w ++ T
    /\ (exists rest, pipeline = stages_of T ++ rest)
    /\ forall w',
         main fuel w = (Returned tt, w') ->
         stages_of T = pipeline
         /\ exists r1 w1 r2 w2 r3 w3 r4 w4,
              process_step fuel analyzer_agent [user_message ANALYZER_PROMPT]
                (announced w [lit "----- STARTING ANALYSIS -----"]) = (Returned r1, w1)
              /\ process_step fuel planner_agent
                   (to_input_list r1 ++ [user_message PLANNER_PROMPT])
                   (announced w1 [model_dump_json (final_output r1);
                                  lit "----- STARTING PLANNING -----"]) = (Returned r2, w2)
              /\ process_step fuel executor_agent
                   (to_input_list r2 ++ [user_message EXECUTOR_PROMPT])
                   (announced w2 [model_dump_json (final_output r2);
                                  lit "----- STARTING EXECUTION -----"]) = (Returned r3, w3)
              /\ process_step fuel qc_agent
                   (to_input_list r3 ++ [user_message QC_PROMPT])
                   (announced w3 [model_dump_json (final_output r3);
                                  lit "----- STARTING QUALITY CHECK -----"])
                 = (Returned r4, w4)
              /\ w' = announced w4 [model_dump_json (final_output r4);
                                    lit "----- WORKFLOW COMPLETE -----"].
Proof.
  destruct (main_invocations fuel w)
    as (T & A1 & A2 & A3 & A4 & HT & HA & H1 & H2 & H3 & H4 & H21 & H32 & H43 & Hret).
  destruct (stages_of_run H1 H2 H3 H4 H21 H32 H43) as (Hprefix & Hall).
  exists T. unfold stages_of. rewrite HA.
  split; [exact HT |]. split; [exact Hprefix |].
  intros w' Hmain. split.
  - apply Hall, Hret. now rewrite Hmain.
  - now apply main_returned_stages.
Qed.

(** C7. Once the QC stage has returned, [main] prints its output and the
    line that the workflow is complete, and returns: whatever that output
    says, [all_requirements_satisfied] included, nothing is invoked again
    and no stage is gone back to. *)
Theorem main_halts_after_qc (fuel : nat) (w w1 w2 w3 w4 : World Env)
    (r1 r2 r3 r4 : RunResult) :
  process_step fuel analyzer_agent [user_message ANALYZER_PROMPT]
    (announced w [lit "----- STARTING ANALYSIS -----"]) = (Returned r1, w1) ->
  process_step fuel planner_agent (to_input_list r1 ++ [user_message PLANNER_PROMPT])
    (announced w1 [model_dump_json (final_output r1);
                   lit "----- STARTING PLANNING -----"]) = (Returned r2, w2) ->
  process_step fuel executor_agent (to_input_list r2 ++ [user_message EXECUTOR_PROMPT])
    (announced w2 [model_dump_json (final_output r2);
                   lit "----- STARTING EXECUTION -----"]) = (Returned r3, w3) ->
  process_step fuel qc_agent (to_input_list r3 ++ [user_message QC_PROMPT])
    (announced w3 [model_dump_json (final_output r3);
                   lit "----- STARTING QUALITY CHECK -----"]) = (Returned r4, w4) ->
  main fuel w =
    (Returned tt,
     mkWorld (env w4)
       (trace w4 ++ [Printed (model_dump_json (final_output r4) ++ newline);
                     Printed (lit "----- WORKFLOW COMPLETE -----" ++ newline)])).
Proof.
  intros E1 E2 E3 E4. rewrite main_eq, E1. cbn [and_then].
  rewrite E2. cbn [and_then]. rewrite E3. cbn [and_then]. rewrite E4. reflexivity.
Qed.

End MainFacts.
(** ** The claims on concrete sessions *)

Lemma main_runs_stages_in_order_witness :
  exists T,
    trace (snd (main 2 (Scripted.start Scripted.curious))) = T
    /\ stages_of T = pipeline
    /\ agents_invoked T =
         [analyzer_agent; planner_agent; planner_agent; executor_agent; qc_agent].
Proof.
  destruct (main_runs_stages_in_order 2 (Scripted.start Scripted.curious))
    as (T & HT & _ & Hret).
  exists T. split; [exact HT |].
  assert (Hmain : main 2 (Scripted.start Scripted.curious) =
                  (Returned tt, snd (main 2 (Scripted.start Scripted.curious))))
    by (vm_compute; reflexivity).
  split; [exact (proj1 (Hret _ Hmain)) |].
  change (trace (Scripted.start Scripted.curious) ++ T) with T in HT.
  rewrite <- HT. vm_compute. reflexivity.
Defined.

Lemma process_step_clarification_round_witness :
  let messages := [user_message ANALYZER_PROMPT] in
  let w := Scripted.start
             (Scripted.session [Scripted.asks (lit "which file?"); Scripted.completes true]
                               [lit "a.mp4"]) in
  let asking :=
    Scripted.said false true (Some (lit "which file?")) (lit "which file?")
      analyzer_agent messages in
  let transcript := to_input_list asking ++ [user_message (lit "a.mp4")] in
  let asked :=
    (trace w ++ Invoked analyzer_agent messages :: narration (stream_events asking))
      ++ [question_shown asking; answer_read (Ok (lit "a.mp4"))] in
  let settled := Scripted.said true false None (lit "done") analyzer_agent transcript in
  process_step 2 analyzer_agent messages w =
    process_step 1 analyzer_agent transcript
      (mkWorld (Scripted.session [Scripted.completes true] []) asked)
  /\ transcript =
       [user_message ANALYZER_PROMPT; Message (lit "assistant") (lit "which file?");
        user_message (lit "a.mp4")]
  /\ process_step 1 analyzer_agent transcript
       (mkWorld (Scripted.session [Scripted.completes true] []) asked) =
       (Returned settled,
        mkWorld (Scripted.session [] [])
          ((asked ++ Invoked analyzer_agent transcript :: narration (stream_events settled))
             ++ [Printed (newline ++ newline)])).
Proof.
  intros messages w asking transcript asked settled.
  assert (E : Runner_run_streamed analyzer_agent messages (env w) =
              (Ok asking, Scripted.session [Scripted.completes true] [lit "a.mp4"]))
    by reflexivity.
  destruct (process_step_clarification_round 1 _ _ _ E) as [Hask _].
  assert (El : read_line (Scripted.session [Scripted.completes true] [lit "a.mp4"]) =
               (Ok (lit "a.mp4"), Scripted.session [Scripted.completes true] []))
    by reflexivity.
  destruct (Hask eq_refl _ _ El) as (_ & _ & Hstep & _).
  split; [exact Hstep |]. split; [reflexivity |].
  assert (E' : Runner_run_streamed analyzer_agent transcript
                 (env (mkWorld (Scripted.session [Scripted.completes true] []) asked)) =
               (Ok settled, Scripted.session [] []))
    by reflexivity.
  destruct (process_step_clarification_round 0 _ _ _ E') as [_ Hret].
  exact (Hret eq_refl).
Defined.

Lemma containers_carry_one_clarification_request_witness :
  let messages := [user_message ANALYZER_PROMPT] in
  let settled := Scripted.said true false None (lit "done") analyzer_agent messages in
  fst (process_step 1 analyzer_agent messages
         (Scripted.start (Scripted.session [Scripted.completes true] []))) = Returned settled
  /\ any_user_input_required (final_output settled) = false.
Proof.
  intros messages settled.
  assert (E : process_step 1 analyzer_agent messages
                (Scripted.start (Scripted.session [Scripted.completes true] [])) =
              (Returned settled,
               snd (process_step 1 analyzer_agent messages
                      (Scripted.start (Scripted.session [Scripted.completes true] [])))))
    by (vm_compute; reflexivity).
  split; [rewrite E; reflexivity |].
  exact (proj2 (@containers_carry_one_clarification_request _ _) _ _ _ _ _ _ E).
Defined.

Lemma main_halts_after_qc_witness :
  exists w4 : World Scripted.env_t,
    main 1 (Scripted.start Scripted.smooth) =
      (Returned tt,
       mkWorld (env w4)
         (trace w4 ++ [Printed (lit "qc: unmet" ++ newline);
                       Printed (lit "----- WORKFLOW COMPLETE -----" ++ newline)])).
Proof.
  set (w := Scripted.start Scripted.smooth).
  set (r1 := Scripted.said true false None (lit "done") analyzer_agent
               [user_message ANALYZER_PROMPT]).
  set (s1 := process_step 1 analyzer_agent [user_message ANALYZER_PROMPT]
               (announced w [lit "----- STARTING ANALYSIS -----"])).
  set (r2 := Scripted.said true false None (lit "done") planner_agent
               (to_input_list r1 ++ [user_message PLANNER_PROMPT])).
  set (s2 := process_step 1 planner_agent (to_input_list r1 ++ [user_message PLANNER_PROMPT])
               (announced (snd s1) [model_dump_json (final_output r1);
                                    lit "----- STARTING PLANNING -----"])).
  set (r3 := Scripted.said true false None (lit "done") executor_agent
               (to_input_list r2 ++ [user_message EXECUTOR_PROMPT])).
  set (s3 := process_step 1 executor_agent
               (to_input_list r2 ++ [user_message EXECUTOR_PROMPT])
               (announced (snd s2) [model_dump_json (final_output r2);
                                    lit "----- STARTING EXECUTION -----"])).
  set (r4 := Scripted.said false false None (lit "done") qc_agent
               (to_input_list r3 ++ [user_message QC_PROMPT])).
  set (s4 := process_step 1 qc_agent (to_input_list r3 ++ [user_message QC_PROMPT])
               (announced (snd s3) [model_dump_json (final_output r3);
                                    lit "----- STARTING QUALITY CHECK -----"])).
  assert (E1 : s1 = (Returned r1, snd s1)) by (vm_compute; reflexivity).
  assert (E2 : s2 = (Returned r2, snd s2)) by (vm_compute; reflexivity).
  assert (E3 : s3 = (Returned r3, snd s3)) by (vm_compute; reflexivity).
  assert (E4 : s4 = (Returned r4, snd s4)) by (vm_compute; reflexivity).
  exists (snd s4).
  exact (main_halts_after_qc 1 w E1 E2 E3 E4).
Defined.

Lemma process_step_clarification_unbounded_witness :
  fst (process_step 9 analyzer_agent [user_message ANALYZER_PROMPT] (mkWorld 0%nat []))
    = Unfinished
  /\ exists result,
       fst (process_step 3 analyzer_agent [user_message ANALYZER_PROMPT]
              (mkWorld (Scripted.hesitant 2) [])) = Returned result
       /\ fst (process_step 2 analyzer_agent [user_message ANALYZER_PROMPT]
                 (mkWorld (Scripted.hesitant 2) [])) = Unfinished
       /\ exists n, n < 3 /\ any_user_input_required (final_output result) = false.
Proof.
  destruct process_step_clarification_unbounded as (Hnever & Hafter & Hback & _).
  split.
  - apply (Hnever nat Insistent.externals analyzer_agent).
    + intros messages e. eexists _, _. split; reflexivity.
    + intros e. eexists _, _. reflexivity.
  - destruct (hesitant_rounds 2 analyzer_agent [user_message ANALYZER_PROMPT] [])
      as (m' & w' & Ha & Hr).
    exists (Scripted.said true false None (lit "done") analyzer_agent m').
    pose proof (Hafter _ _ _ _ _ _ _ _ _ _ Ha Hr eq_refl 3%nat) as H3.
    split; [exact H3 |].
    split; [exact (Hafter _ _ _ _ _ _ _ _ _ _ Ha Hr eq_refl 2%nat) |].
    destruct (process_step 3 analyzer_agent [user_message ANALYZER_PROMPT]
                (mkWorld (Scripted.hesitant 2) [])) as [o w3] eqn:E3.
    cbn [fst] in H3. subst o.
    destruct (Hback _ _ _ _ _ _ _ _ E3) as (n & _ & _ & _ & Hn & _ & _ & Hflag).
    exists n. split; assumption.
Defined.
(** ** Further properties of the shell tool adapter *)

Section SplitFacts.

(** [split] gives no word exactly on a blank string. *)
Lemma split_from_nil (s : str) :
  forall cur, split_from cur s = [] <-> cur = [] /\ blank s = true.
Proof.
  induction s as [|c s IH]; intros cur.
  - cbn. destruct cur; split; intros H; try discriminate; try tauto.
    destruct H; discriminate.
  - cbn [split_from blank forallb]. destruct (isspace c) eqn:Hc; cbn [andb].
    + destruct cur.
      * rewrite IH. unfold blank. tauto.
      * split; [discriminate | intros [? _]; discriminate].
    + rewrite IH. split; [intros [? _]; discriminate | intros [_ ?]; discriminate].
Qed.

Lemma split_nil (s : str) : split s = [] <-> blank s = true.
Proof. unfold split. rewrite split_from_nil. tauto. Qed.

(** Where the first word of a string lies: after separators only, made of
    no separator, and followed by a separator or the end. *)
Lemma split_from_first (s : str) :
  forall cur first rest,
    split_from cur s = first :: rest ->
    exists pre body post,
      s = pre ++ body ++ post
      /\ first = rev cur ++ body
      /\ first <> []
      /\ (cur = [] -> blank pre = true)
      /\ (cur <> [] -> pre = [])
      /\ forallb (fun c => negb (isspace c)) body = true
      /\ (post = [] \/ exists c post', post = c :: post' /\ isspace c = true).
Proof.
  pose (nonempty := fun l : str => (0 < List.length l)%nat).
  assert (Hne0 : forall l : str, nonempty l -> l <> [])
    by (unfold nonempty; intros l Hl ->; cbn in Hl; lia).
  induction s as [|c s IH]; intros cur first rest H.
  - cbn [split_from] in H. destruct cur as [|x cur]; [discriminate |].
    injection H as <- _. exists [], [], [].
    split; [reflexivity |]. split; [now rewrite app_nil_r |].
    split; [apply Hne0; unfold nonempty; rewrite ?length_app; cbn [List.length]; lia |].
    split; [discriminate |]. split; [reflexivity |]. split; [reflexivity | now left].
  - cbn [split_from] in H. destruct (isspace c) eqn:Hc.
    + destruct cur as [|x cur].
      * destruct (IH _ _ _ H)
          as (pre & body & post & -> & -> & Hne & Hb & _ & Hbody & Hpost).
        exists (c :: pre), body, post.
        split; [reflexivity |]. split; [reflexivity |]. split; [exact Hne |].
        split; [intros _; cbn; rewrite Hc; now apply Hb |].
        split; [intros E; now elim E |]. split; assumption.
      * injection H as <- _. exists [], [], (c :: s).
        split; [reflexivity |]. split; [now rewrite app_nil_r |].
        split; [apply Hne0; unfold nonempty; rewrite ?length_app; cbn [List.length]; lia |].
        split; [discriminate |]. split; [reflexivity |].
        split; [reflexivity | right; eauto].
    + destruct (IH _ _ _ H)
        as (pre & body & post & -> & -> & Hne & _ & Hp & Hbody & Hpost).
      rewrite (Hp ltac:(discriminate)). cbn [app rev].
      exists [], (c :: body), post.
      split; [reflexivity |]. split; [now rewrite <- app_assoc |].
      split; [apply Hne0; unfold nonempty; rewrite ?length_app; cbn [List.length]; lia |].
      split; [reflexivity |]. split; [reflexivity |].
      split; [cbn; now rewrite Hc | assumption].
Qed.

End SplitFacts.

(** X1. The name the not-found message gives to a command is its first
    word: a part of the command that comes after separators only, holds no
    separator, and ends at a separator or at the end of the command; it is
    empty for the empty command only.  The expression fails, with
    [IndexError], exactly on the commands that are not empty and blank. *)
Theorem failing_command_name_first_word_of (command : str) :
  (forall first,
     failing_command_name command = Ok first ->
     (first = [] <-> command = [])
     /\ exists pre post,
          command = pre ++ first ++ post
          /\ blank pre = true
          /\ forallb (fun c => negb (isspace c)) first = true
          /\ (post = [] \/ exists c post', post = c :: post' /\ isspace c = true))
  /\ ((exists x, failing_command_name command = Fail x)
      <-> command <> [] /\ blank command = true).
Proof.
  unfold failing_command_name. destruct command as [|c0 command'].
  - cbn. split.
    + intros first [= <-]. split; [tauto |]. exists [], [].
      split; [reflexivity |]. split; [reflexivity |]. split; [reflexivity | now left].
    + split; [intros [x [=]] | intros [H _]; now elim H].
  - set (command := c0 :: command'). cbn [truthy].
    destruct (split command) as [|w ws] eqn:E.
    + split; [discriminate |].
      split; [intros _; split; [discriminate | now apply split_nil] |].
      intros _. eexists. reflexivity.
    + split.
      * intros first [= <-]. unfold split in E.
        destruct (split_from_first _ _ E)
          as (pre & body & post & Hs & Hw & Hne & Hb & _ & Hbody & Hpost).
        cbn [rev app] in Hw. subst w.
        split; [split; [intros ->; now elim Hne | discriminate] |].
        exists pre, post.
        split; [exact Hs |]. split; [now apply Hb |]. split; assumption.
      * split; [intros [x [=]] |].
        intros [_ Hb]. apply split_nil in Hb. rewrite Hb in E. discriminate.
Qed.

Lemma failing_command_name_first_word_of_witness :
  exists pre post,
    lit "  ffmpeg -i a.mp4" = pre ++ lit "ffmpeg" ++ post
    /\ blank pre = true
    /\ ((exists x, failing_command_name (lit "   ") = Fail x)).
Proof.
  destruct (failing_command_name_first_word_of (lit "  ffmpeg -i a.mp4")) as [Hok _].
  destruct (Hok (lit "ffmpeg") eq_refl) as (_ & pre & post & Hs & Hb & _).
  exists pre, post. split; [exact Hs |]. split; [exact Hb |].
  apply (proj2 (failing_command_name_first_word_of (lit "   "))).
  split; [discriminate | reflexivity].
Defined.

Section ToolExtras.

Context {Env : Type} `{Ext : Externals Env}.


(** X3. The tool runs the command once, as it was given, and does nothing
    else to the outside world: whatever happens, the environment is the one
    [subprocess.run] left, and the trace gains the spawning of the command
    followed by at most one line on [sys.stderr], which is there exactly
    when [subprocess.run] raised and the tool returned. *)
Theorem execute_terminal_command_spawns_once (command : str) (w : World Env) :
  exists rest,
    snd (execute_terminal_command command w) =
      mkWorld (snd (subprocess_run command (env w))) (trace w ++ Spawned command :: rest)
    /\ (rest = []
        \/ (exists line, rest = [PrintedErr line])
           /\ (exists x, fst (subprocess_run command (env w)) = Fail x)
           /\ returned (fst (execute_terminal_command command w)) = true)
    /\ (forall result, fst (subprocess_run command (env w)) = Ok result -> rest = []).
Proof.
  destruct (subprocess_run command (env w)) as [[result|x] e'] eqn:E.
  - rewrite (execute_terminal_command_completed _ _ E). exists []. cbn [fst snd].
    split; [reflexivity |]. split; [now left | reflexivity].
  - assert (Hx : (exists m, x = FileNotFoundError m) \/ forall m, x <> FileNotFoundError m)
      by (destruct x; ((left; eexists; reflexivity) || (right; discriminate))).
    destruct Hx as [[m ->]|Hx].
    + rewrite (execute_terminal_command_not_found _ _ E).
      destruct (failing_command_name command) as [first|y]; cbv zeta; cbn [fst snd app].
      * eexists. split; [reflexivity |]. split; [| intros ? [=]].
        right. split; [eexists; reflexivity |]. split; [eexists; reflexivity | reflexivity].
      * exists []. split; [reflexivity |]. split; [now left | reflexivity].
    + rewrite (execute_terminal_command_fault _ _ E Hx). cbv zeta. cbn [fst snd app].
      eexists. split; [reflexivity |]. split; [| intros ? [=]].
      right. split; [eexists; reflexivity |]. split; [eexists; reflexivity | reflexivity].
Qed.

End ToolExtras.


Lemma execute_terminal_command_spawns_once_witness :
  exists rest,
    trace (snd (execute_terminal_command (lit "echo hi") (Scripted.start Scripted.quiet))) =
      [] ++ Spawned (lit "echo hi") :: rest
    /\ rest = [].
Proof.
  destruct (execute_terminal_command_spawns_once (lit "echo hi")
              (Scripted.start Scripted.quiet)) as (rest & Hw & _ & Hok).
  exists rest. split; [now rewrite Hw |].
  eapply Hok. reflexivity.
Defined.

Section JsonExtras.

Local Open Scope N_scope.

Lemma scalar_value_spec (c : char) :
  scalar_value c = true <-> c < 55296 \/ 57344 <= c < 1114112.
Proof.
  unfold scalar_value.
  rewrite orb_true_iff, andb_true_iff, !N.ltb_lt, N.leb_le. tauto.
Qed.

(** A text of scalar values reads back as it was written. *)
Lemma decoded_scalar_values (s : str) :
  forallb scalar_value s = true -> decoded s = s.
Proof.
  induction s as [|c s IH]; [reflexivity |].
  cbn [forallb]. rewrite andb_true_iff. intros [Hc Hs].
  apply scalar_value_spec in Hc.
  destruct (N.ltb_spec c 65536) as [Hlt|Hge].
  - rewrite decoded_cons_unit, IH; auto.
    apply is_high_false. lia.
  - rewrite decoded_eq. destruct (N.ltb_spec c 65536); [lia |].
    rewrite IH by assumption. f_equal.
    rewrite N.mod_small by lia. lia.
Qed.

Lemma printable_ascii_spec (c : char) : printable_ascii c = true <-> 32 <= c <= 126.
Proof. unfold printable_ascii. rewrite andb_true_iff, !N.leb_le. tauto. Qed.

Lemma hex_digit_printable (d : N) : d < 16 -> printable_ascii (hex_digit d) = true.
Proof.
  intros Hd. apply printable_ascii_spec. unfold hex_digit.
  destruct (N.ltb_spec d 10); lia.
Qed.

Lemma u_escape_printable (n : N) : forallb printable_ascii (u_escape n) = true.
Proof.
  unfold u_escape. cbn [forallb].
  rewrite !hex_digit_printable by (apply N.mod_lt; discriminate). reflexivity.
Qed.

Lemma escape_char_printable (c : char) : forallb printable_ascii (escape_char c) = true.
Proof.
  destruct (escape_char_cases c)
    as [(e & E & He & Hs & Hc)|[(E & H34 & H92 & Hc)|[(E & Hc)|(Hc & E)]]]; rewrite E.
  - cbn [forallb]. rewrite andb_true_r. change (printable_ascii 92) with true.
    cbn [andb]. apply printable_ascii_spec.
    unfold simple_escape in Hs.
    repeat (match type of Hs with
            | context [?a =? ?b] => destruct (N.eqb_spec a b); [lia |]
            end).
    discriminate.
  - cbn [forallb]. rewrite andb_true_r. apply printable_ascii_spec.
    split; [lia |]. unfold escape_char in E.
    repeat (match type of E with
            | context [?a =? ?b] => destruct (N.eqb_spec a b); [lia |]
            end).
    destruct (N.leb_spec 32 c); [| lia]. cbn [andb] in E.
    destruct (N.leb_spec c 126); [assumption |].
    destruct (c <? 65536); discriminate.
  - apply u_escape_printable.
  - rewrite forallb_app, !u_escape_printable. reflexivity.
Qed.

Lemma encode_basestring_ascii_printable (s : str) :
  forallb printable_ascii (encode_basestring_ascii s) = true.
Proof.
  unfold encode_basestring_ascii. cbn [forallb].
  change (printable_ascii 34) with true. cbn [andb].
  rewrite forallb_app. cbn [forallb]. change (printable_ascii 34) with true.
  rewrite andb_true_r.
  induction s as [|c s IH]; [reflexivity |].
  cbn [flat_map]. now rewrite forallb_app, escape_char_printable.
Qed.

Lemma chars_of_uint_printable (d : Decimal.uint) :
  forallb printable_ascii (chars_of_uint d) = true.
Proof. induction d; cbn [chars_of_uint forallb]; try assumption; reflexivity. Qed.

Lemma dumps_scalar_printable (v : scalar) : forallb printable_ascii (dumps_scalar v) = true.
Proof.
  destruct v as [s|n]; cbn [dumps_scalar]; [apply encode_basestring_ascii_printable |].
  unfold repr_int. destruct (Z.to_int n); cbn [forallb];
    now rewrite chars_of_uint_printable.
Qed.

(** What [json.dumps] writes is printable ASCII, on one line. *)
Lemma json_dumps_printable (o : jobject) : forallb printable_ascii (json_dumps o) = true.
Proof.
  unfold json_dumps. cbn [forallb]. change (printable_ascii 123) with true.
  cbn [andb]. rewrite forallb_app. cbn [forallb]. change (printable_ascii 125) with true.
  rewrite andb_true_r.
  assert (Hm : forall kv, forallb printable_ascii (dumps_member kv) = true).
  { intros kv. unfold dumps_member.
    now rewrite !forallb_app, encode_basestring_ascii_printable, dumps_scalar_printable. }
  induction o as [|kv l IH]; [reflexivity |].
  destruct l as [|kv' l]; [apply Hm |].
  change (dumps_members (kv :: kv' :: l))
    with (dumps_member kv ++ lit ", " ++ dumps_members (kv' :: l)).
  now rewrite !forallb_app, Hm, IH.
Qed.

End JsonExtras.

Section ToolValueExtras.

Context {Env : Type} `{Ext : Externals Env}.

(** A value the tool returns is the text of its three-key dict. *)
Lemma execute_terminal_command_value (command : str) (w w' : World Env) (v : str) :
  execute_terminal_command command w = (Returned v, w') ->
  exists out err code, v = json_dumps (tool_result out err code).
Proof.
  intros H.
  destruct (subprocess_run command (env w)) as [[result|x] e'] eqn:E.
  - rewrite (execute_terminal_command_completed _ _ E) in H. injection H as <- _. eauto.
  - assert (Hx : (exists m, x = FileNotFoundError m) \/ forall m, x <> FileNotFoundError m)
      by (destruct x; ((left; eexists; reflexivity) || (right; discriminate))).
    destruct Hx as [[m ->]|Hx].
    + rewrite (execute_terminal_command_not_found _ _ E) in H.
      destruct (failing_command_name command); [| discriminate].
      cbv zeta in H. injection H as <- _. eauto.
    + rewrite (execute_terminal_command_fault _ _ E Hx) in H.
      cbv zeta in H. injection H as <- _. eauto.
Qed.

(** X4. When the command ran, whatever its exit code, the tool reports it
    as data: it returns, prints nothing on [sys.stderr], and its text
    parses back to exactly the captured output, the captured errors and the
    exit code of the process (the captured texts being decoded text, which
    holds scalar values only). *)
Theorem execute_terminal_command_reports_process
    (command : str) (w : World Env) (result : CompletedProcess) (e' : Env) :
  subprocess_run command (env w) = (Ok result, e') ->
  forallb scalar_value (stdout result) = true ->
  forallb scalar_value (stderr result) = true ->
  exists v,
    execute_terminal_command command w =
      (Returned v, mkWorld e' (trace w ++ [Spawned command]))
    /\ json_loads v =
         Some [(lit "stdout", JStr (stdout result)); (lit "stderr", JStr (stderr result));
               (lit "return_code", JInt (returncode result))].
Proof.
  intros E Hout Herr. eexists. split; [apply (execute_terminal_command_completed _ _ E) |].
  rewrite json_loads_dumps, decoded_tool_result.
  now rewrite (decoded_scalar_values _ Hout), (decoded_scalar_values _ Herr).
Qed.

(** X5. Every value the tool returns is printable ASCII on a single line,
    whatever the command printed: [json.dumps] escapes the rest. *)
Theorem execute_terminal_command_returns_ascii
    (command : str) (w w' : World Env) (v : str) :
  execute_terminal_command command w = (Returned v, w') ->
  forallb printable_ascii v = true
  /\ ~ In 10%N v.
Proof.
  intros H. destruct (execute_terminal_command_value _ _ H) as (out & err & code & ->).
  pose proof (json_dumps_printable (tool_result out err code)) as Hp.
  split; [exact Hp |].
  intros Hin. rewrite forallb_forall in Hp. apply Hp in Hin. discriminate.
Qed.

End ToolValueExtras.

Lemma execute_terminal_command_reports_process_witness :
  exists v,
    fst (execute_terminal_command (lit "nonexistent-cmd-xyz")
           (Scripted.start Scripted.quiet)) = Returned v
    /\ json_loads v =
         Some [(lit "stdout", JStr []);
               (lit "stderr",
                JStr (lit "/bin/sh: 1: nonexistent-cmd-xyz: not found" ++ newline));
               (lit "return_code", JInt 127)].
Proof.
  assert (E : subprocess_run (lit "nonexistent-cmd-xyz")
                (env (Scripted.start Scripted.quiet)) =
              (Ok (mkCompleted []
                     (lit "/bin/sh: 1: nonexistent-cmd-xyz: not found" ++ newline) 127),
               Scripted.quiet))
    by reflexivity.
  destruct (execute_terminal_command_reports_process _ _ E eq_refl eq_refl)
    as (v & Hv & Hl).
  exists v. split; [now rewrite Hv | exact Hl].
Defined.

Lemma execute_terminal_command_returns_ascii_witness :
  exists v,
    fst (execute_terminal_command (lit "echo hi") (Scripted.start Scripted.quiet))
      = Returned v
    /\ forallb printable_ascii v = true.
Proof.
  assert (E : execute_terminal_command (lit "echo hi") (Scripted.start Scripted.quiet) =
              (Returned (json_dumps (tool_result (lit "hi" ++ newline) [] 0)),
               mkWorld Scripted.quiet [Spawned (lit "echo hi")]))
    by reflexivity.
  eexists. split; [now rewrite E |].
  exact (proj1 (execute_terminal_command_returns_ascii _ _ E)).
Defined.

(** ** Further properties of the narration, the step runner and the orchestrator *)

Lemma count_app (kind : IOEvent -> bool) (t1 t2 : list IOEvent) :
  count kind (t1 ++ t2) = (count kind t1 + count kind t2)%nat.
Proof. unfold count. now rewrite filter_app, length_app. Qed.

Lemma narration_stdout (events : list StreamEvent) :
  forallb is_stdout (narration events) = true.
Proof.
  induction events as [|ev l IH]; [reflexivity |].
  unfold narration in *. cbn [flat_map]. rewrite forallb_app, IH.
  destruct ev; reflexivity.
Qed.

Lemma stdout_orchestration (t : list IOEvent) :
  forallb is_stdout t = true -> forallb is_orchestration t = true.
Proof.
  induction t as [|ev t IH]; [reflexivity |].
  cbn [forallb]. rewrite !andb_true_iff. intros [Hev Ht].
  split; [destruct ev; (reflexivity || discriminate) | now apply IH].
Qed.

Lemma stdout_counts (t : list IOEvent) :
  forallb is_stdout t = true -> count is_invocation t = O /\ count is_answer t = O.
Proof.
  induction t as [|ev t IH]; [split; reflexivity |].
  cbn [forallb]. rewrite andb_true_iff. intros [Hev Ht].
  destruct ev; try discriminate. now apply IH.
Qed.

Lemma printed_stdout (texts : list str) :
  forallb is_stdout (map (fun text => Printed (text ++ newline)) texts) = true.
Proof. induction texts; [reflexivity | assumption]. Qed.

Section RunnerExtras.

Context {Env : Type} `{Ext : Externals Env}.


(** What a call of [process_step] adds to the trace, however it ends:
    printing, reading and invoking only; an invocation for every question
    read, and one more at most, which is there when the call returns.  The
    call never ends the process. *)
Lemma process_step_events (fuel : nat) :
  forall (agent : Agent) (messages : list Item) (w : World Env),
  exists t,
    trace (snd (process_step fuel agent messages w)) = trace w ++ t
    /\ forallb is_orchestration t = true
    /\ count is_answer t <= count is_invocation t <= S (count is_answer t)
    /\ (returned (fst (process_step fuel agent messages w)) = true ->
        count is_invocation t = S (count is_answer t))
    /\ (forall c, fst (process_step fuel agent messages w) <> Exited c).
Proof.
  induction fuel as [|fuel IH]; intros agent messages w.
  - exists []. cbn. rewrite app_nil_r.
    repeat split; try lia; try discriminate.
  - rewrite process_step_eq.
    destruct (Runner_run_streamed agent messages (env w)) as [[result|x] e1].
    2:{ exists [Invoked agent messages]. cbn.
        repeat split; try lia; try discriminate. }
    cbv zeta.
    pose proof (narration_stdout (stream_events result)) as Hn.
    pose proof (stdout_orchestration _ Hn) as Ho.
    destruct (stdout_counts _ Hn) as [Hi Ha].
    destruct (any_user_input_required (final_output result)).
    2:{ exists (Invoked agent messages :: narration (stream_events result)
                  ++ [Printed (newline ++ newline)]).
        cbn [fst snd trace returned]. rewrite <- app_assoc. cbn [app].
        split; [reflexivity |].
        split; [cbn [forallb is_orchestration]; rewrite forallb_app, Ho; reflexivity |].
        change (Invoked agent messages :: narration (stream_events result)
                  ++ [Printed (newline ++ newline)])
          with ([Invoked agent messages] ++ narration (stream_events result)
                  ++ [Printed (newline ++ newline)]).
        rewrite !count_app, Hi, Ha. cbn.
        repeat split; try lia; try discriminate. }
    destruct (read_line e1) as [[line|x] e2].
    2:{ exists (Invoked agent messages :: narration (stream_events result)
                  ++ [question_shown result; answer_read (Fail x)]).
        cbn [fst snd trace returned]. rewrite <- !app_assoc. cbn [app].
        split; [reflexivity |].
        split; [cbn [forallb is_orchestration]; rewrite forallb_app, Ho; reflexivity |].
        change (Invoked agent messages :: narration (stream_events result)
                  ++ [question_shown result; answer_read (Fail x)])
          with ([Invoked agent messages] ++ narration (stream_events result)
                  ++ [question_shown result; answer_read (Fail x)]).
        rewrite !count_app, Hi, Ha. cbn.
        repeat split; try lia; try discriminate. }
    match goal with
    | |- context [process_step fuel agent ?m ?w'] =>
        destruct (IH agent m w') as (t & Ht & Hot & Hc & Hr & Hx);
        set (p := process_step fuel agent m w') in *
    end.
    clearbody p.
    exists (Invoked agent messages :: narration (stream_events result)
              ++ [question_shown result; answer_read (Ok line)] ++ t).
    rewrite Ht. cbn [trace]. rewrite <- !app_assoc. cbn [app].
    split; [reflexivity |].
    split; [cbn [forallb is_orchestration]; rewrite forallb_app, Ho;
            cbn [forallb is_orchestration question_shown answer_read andb]; exact Hot |].
    change (Invoked agent messages :: narration (stream_events result)
              ++ question_shown result :: answer_read (Ok line) :: t)
      with ([Invoked agent messages] ++ narration (stream_events result)
              ++ [question_shown result; answer_read (Ok line)] ++ t).
    rewrite !count_app, Hi, Ha.
    change (count is_invocation [Invoked agent messages]) with 1%nat.
    change (count is_answer [Invoked agent messages]) with 0%nat.
    change (count is_invocation [question_shown result; answer_read (Ok line)]) with 0%nat.
    change (count is_answer [question_shown result; answer_read (Ok line)]) with 1%nat.
    split; [lia |]. split; [intros Hret; specialize (Hr Hret); lia | exact Hx].
Qed.

(** X7. A call of [process_step] that returns has invoked its agent exactly
    once more than it has read an answer from the user: every invocation
    but the last was followed by one question, and the last by none. *)
Theorem process_step_questions_counted
    (fuel : nat) (agent : Agent) (messages : list Item) (w w' : World Env)
    (result : RunResult) :
  process_step fuel agent messages w = (Returned result, w') ->
  exists t,
    trace w' = trace w ++ t
    /\ count is_invocation t = S (count is_answer t).
Proof.
  intros H. destruct (process_step_events fuel agent messages w) as (t & Ht & _ & _ & Hr & _).
  rewrite H in *. exists t. split; [exact Ht | now apply Hr].
Qed.


(** What a stage adds to the trace, with the lines printed before it. *)
Lemma stage_events (fuel : nat) (agent : Agent) (messages : list Item) (w : World Env)
    (texts : list str) :
  exists t,
    trace (snd (process_step fuel agent messages (announced w texts))) = trace w ++ t
    /\ forallb is_orchestration t = true
    /\ count is_answer t <= count is_invocation t <= S (count is_answer t)
    /\ (returned (fst (process_step fuel agent messages (announced w texts))) = true ->
        count is_invocation t = S (count is_answer t))
    /\ (forall c, fst (process_step fuel agent messages (announced w texts)) <> Exited c).
Proof.
  destruct (process_step_events fuel agent messages (announced w texts))
    as (t & Ht & Ho & Hc & Hr & Hx).
  pose proof (printed_stdout texts) as Hp.
  destruct (stdout_counts _ Hp) as [Hi Ha].
  exists (map (fun text => Printed (text ++ newline)) texts ++ t).
  cbn [announced trace] in Ht. rewrite <- app_assoc in Ht.
  split; [exact Ht |].
  rewrite forallb_app, (stdout_orchestration _ Hp), Ho, !count_app, Hi, Ha.
  cbn [Nat.add andb]. repeat split; try lia; assumption.
Qed.

(** What a run of [main] adds to the trace, however it ends. *)
Lemma main_events (fuel : nat) (w : World Env) :
  exists T,
    trace (snd (main fuel w)) = trace w ++ T
    /\ forallb is_orchestration T = true
    /\ count is_answer T <= count is_invocation T <= 4 + count is_answer T
    /\ (fst (main fuel w) = Returned tt -> count is_invocation T = 4 + count is_answer T)
    /\ (forall c, fst (main fuel w) <> Exited c).
Proof.
  rewrite main_eq.
  destruct (stage_events fuel analyzer_agent [user_message ANALYZER_PROMPT] w
              [lit "----- STARTING ANALYSIS -----"]) as (t1 & Ht1 & Ho1 & Hc1 & Hr1 & Hx1).
  destruct (process_step fuel analyzer_agent _ _) as [o1 w1]. cbn [fst snd] in *.
  destruct o1 as [r1| |c1|]; cbn [and_then fst snd];
    [ | exists t1; repeat split; try lia; try discriminate; auto;
        try (exfalso; now eapply Hx1) .. ].
  specialize (Hr1 eq_refl).
  destruct (stage_events fuel planner_agent
              (to_input_list r1 ++ [user_message PLANNER_PROMPT]) w1
              [model_dump_json (final_output r1); lit "----- STARTING PLANNING -----"])
    as (t2 & Ht2 & Ho2 & Hc2 & Hr2 & Hx2).
  rewrite Ht1, <- app_assoc in Ht2.
  destruct (process_step fuel planner_agent _ _) as [o2 w2]. cbn [fst snd] in *.
  destruct o2 as [r2| |c2|]; cbn [and_then fst snd];
    [ | exists (t1 ++ t2); rewrite forallb_app, Ho1, Ho2, !count_app;
        repeat split; try lia; try discriminate; auto;
        try (exfalso; now eapply Hx2) .. ].
  specialize (Hr2 eq_refl).
  destruct (stage_events fuel executor_agent
              (to_input_list r2 ++ [user_message EXECUTOR_PROMPT]) w2
              [model_dump_json (final_output r2); lit "----- STARTING EXECUTION -----"])
    as (t3 & Ht3 & Ho3 & Hc3 & Hr3 & Hx3).
  rewrite Ht2, <- !app_assoc in Ht3.
  destruct (process_step fuel executor_agent _ _) as [o3 w3]. cbn [fst snd] in *.
  destruct o3 as [r3| |c3|]; cbn [and_then fst snd];
    [ | exists (t1 ++ t2 ++ t3); rewrite !forallb_app, Ho1, Ho2, Ho3, !count_app;
        repeat split; try lia; try discriminate; auto;
        try (exfalso; now eapply Hx3) .. ].
  specialize (Hr3 eq_refl).
  destruct (stage_events fuel qc_agent
              (to_input_list r3 ++ [user_message QC_PROMPT]) w3
              [model_dump_json (final_output r3); lit "----- STARTING QUALITY CHECK -----"])
    as (t4 & Ht4 & Ho4 & Hc4 & Hr4 & Hx4).
  rewrite Ht3, <- !app_assoc in Ht4.
  destruct (process_step fuel qc_agent _ _) as [o4 w4]. cbn [fst snd] in *.
  destruct o4 as [r4| |c4|]; cbn [and_then fst snd];
    [ | exists (t1 ++ t2 ++ t3 ++ t4);
        rewrite !forallb_app, Ho1, Ho2, Ho3, Ho4, !count_app;
        repeat split; try lia; try discriminate; auto;
        try (exfalso; now eapply Hx4) .. ].
  specialize (Hr4 eq_refl).
  pose proof (printed_stdout [model_dump_json (final_output r4);
                              lit "----- WORKFLOW COMPLETE -----"]) as Hp.
  destruct (stdout_counts _ Hp) as [Hi Ha].
  exists (t1 ++ t2 ++ t3 ++ t4
            ++ map (fun text => Printed (text ++ newline))
                 [model_dump_json (final_output r4); lit "----- WORKFLOW COMPLETE -----"]).
  cbn [announced trace]. rewrite Ht4, <- !app_assoc.
  rewrite !forallb_app, Ho1, Ho2, Ho3, Ho4, (stdout_orchestration _ Hp), !count_app, Hi, Ha.
  repeat split; try lia; try discriminate.
Qed.

End RunnerExtras.

Section OrchestratorExtras.

Context {Env : Type} `{Ext : Externals Env}.

(** X9. In every run of [main] the invocations of agents are at least the
    answers read from the user and at most four more; in a run that returns
    they are exactly four more: one invocation settles each stage, every
    other one is followed by a question to the user. *)
Theorem main_questions_counted (fuel : nat) (w : World Env) :
  exists T,
    trace (snd (main fuel w)) = trace w ++ T
    /\ count is_answer T <= count is_invocation T <= 4 + count is_answer T
    /\ (fst (main fuel w) = Returned tt ->
        count is_invocation T = 4 + count is_answer T).
Proof.
  destruct (main_events fuel w) as (T & HT & _ & Hc & Hr & _).
  exists T. auto.
Qed.

(** X10. The orchestrator acts on the outside world through the agents
    only: however a run of [main] ends, what it adds to the trace is lines
    on [sys.stdout], answers read from the terminal and invocations of
    agents, never the spawning of a command nor a line on [sys.stderr];
    and [main] never ends the process by [sys.exit]. *)
Theorem main_orchestrates_only (fuel : nat) (w : World Env) :
  exists T,
    trace (snd (main fuel w)) = trace w ++ T
    /\ forallb is_orchestration T = true
    /\ count is_stderr T = O
    /\ count (fun ev => match ev with Spawned _ => true | _ => false end) T = O
    /\ forall c, fst (main fuel w) <> Exited c.
Proof.
  destruct (main_events fuel w) as (T & HT & Ho & _ & _ & Hx).
  exists T. split; [exact HT |]. split; [exact Ho |].
  split; [| split; [| exact Hx]]; clear HT Hx;
    induction T as [|ev T IH]; try reflexivity;
    cbn [forallb] in Ho; apply andb_prop in Ho; destruct Ho as [Hev HoT];
    destruct ev; try discriminate; now apply IH.
Qed.


Lemma configure_gemini_success (w : World Env) (e' : Env) :
  genai_configure (os_getenv (lit "GEMINI_API_KEY") (env w)) (env w) = (Ok tt, e') ->
  configure_gemini w = (Returned tt, mkWorld e' (trace w)).
Proof.
  intros H. unfold configure_gemini, try_except, call. now rewrite H.
Qed.

(** X12. The module is the pipeline behind one gate.  When
    [genai.configure] accepts the value of [GEMINI_API_KEY] read after
    [load_dotenv], the script prints nothing of its own and runs [main];
    and the process ends by [sys.exit] only with the status 1 and only
    because [genai.configure] raised. *)
Theorem script_exits_only_on_configuration_failure (fuel : nat) (w : World Env) :
  (forall e',
     genai_configure (os_getenv (lit "GEMINI_API_KEY") (load_dotenv (env w)))
       (load_dotenv (env w)) = (Ok tt, e') ->
     script fuel w = main fuel (mkWorld e' (trace w)))
  /\ (forall c,
        fst (script fuel w) = Exited c ->
        c = 1%Z
        /\ exists x e',
             genai_configure (os_getenv (lit "GEMINI_API_KEY") (load_dotenv (env w)))
               (load_dotenv (env w)) = (Fail x, e')).
Proof.
  unfold script, bind. cbn [and_then].
  destruct (genai_configure (os_getenv (lit "GEMINI_API_KEY") (load_dotenv (env w)))
              (load_dotenv (env w))) as [[[]|x] e'] eqn:E.
  - pose proof (@configure_gemini_success (mkWorld (load_dotenv (env w)) (trace w)) e' E)
      as Hc. cbn [env trace] in Hc. rewrite Hc. cbn [and_then].
    split; [intros ? [= <-]; reflexivity |].
    intros c Hex. destruct (main_events fuel (mkWorld e' (trace w))) as (_ & _ & _ & _ & _ & Hx).
    now elim (Hx c).
  - pose proof (@configure_gemini_failure _ _ (mkWorld (load_dotenv (env w)) (trace w)) x e' E)
      as Hc. cbn [env trace] in Hc. rewrite Hc. cbn [and_then fst].
    split; [intros ? [=] |].
    intros c [= <-]. split; [reflexivity | eauto].
Qed.

End OrchestratorExtras.

(** *** The further properties on concrete sessions *)

Lemma process_step_questions_counted_witness :
  exists t,
    trace (snd (process_step 3 analyzer_agent [user_message ANALYZER_PROMPT]
                  (Scripted.start (Scripted.hesitant 2)))) = t
    /\ count is_invocation t = S (count is_answer t).
Proof.
  destruct (process_step 3 analyzer_agent [user_message ANALYZER_PROMPT]
              (Scripted.start (Scripted.hesitant 2))) as [o w'] eqn:E.
  assert (Hret : returned (fst (process_step 3 analyzer_agent [user_message ANALYZER_PROMPT]
                                  (Scripted.start (Scripted.hesitant 2)))) = true)
    by (vm_compute; reflexivity).
  rewrite E in Hret. destruct o as [r| | |]; try discriminate.
  destruct (process_step_questions_counted _ _ _ _ E) as (t & Ht & Hc).
  exists t. split; [exact Ht | exact Hc].
Defined.


Lemma main_questions_counted_witness :
  exists T,
    trace (snd (main 2 (Scripted.start Scripted.curious))) = T
    /\ count is_invocation T = 4 + count is_answer T.
Proof.
  destruct (main_questions_counted 2 (Scripted.start Scripted.curious))
    as (T & HT & _ & Hret).
  exists T. split; [exact HT |].
  apply Hret. vm_compute. reflexivity.
Defined.


Lemma script_exits_only_on_configuration_failure_witness :
  script 1 (Scripted.start Scripted.smooth) = main 1 (mkWorld Scripted.smooth [])
  /\ exists x e',
       genai_configure (os_getenv (lit "GEMINI_API_KEY")
                          (load_dotenv (env (Scripted.start Scripted.no_key))))
         (load_dotenv (env (Scripted.start Scripted.no_key))) = (Fail x, e').
Proof.
  split.
  - apply (proj1 (script_exits_only_on_configuration_failure 1
                    (Scripted.start Scripted.smooth))).
    reflexivity.
  - refine (proj2 (proj2 (script_exits_only_on_configuration_failure 1
                            (Scripted.start Scripted.no_key)) 1%Z _)).
    vm_compute. reflexivity.
Defined.
